(** * WhatsApp Cloud API integration: webhook dispatch and outbound messages

    A shallow embedding of the TypeScript classes [WhatsAppConfig],
    [WhatsAppHttpClient], [WhatsAppMessageRepository], [SendMessageUseCase]
    and [WhatsAppWebhookRepository], followed by the properties proved about
    them.

    Conventions of the embedding.
    - A JavaScript value that comes out of [JSON.parse] is a [JSON] term;
      objects are finite maps from property names to values.
    - [undefined] is the [None] of an [option]; [null] is [JNull].
    - A function that may throw returns a [Result]; an [async] function is
      modelled by the value (or exception) its promise settles with.
    - Console output is not modelled. *)

From Stdlib Require Import QArith.
From stdpp Require Import gmap strings list fin_maps pretty.

Set Warnings "-register-all".
Local Open Scope string_scope.

(** ** Exceptions and results *)

Inductive Exn : Type :=
  | Error (message : string)
  | TypeError (message : string)
  | SyntaxError (message : string).

Inductive Result (A : Type) : Type :=
  | Return (a : A)
  | Throw (e : Exn).
Arguments Return {A} a.
Arguments Throw {A} e.

Definition throws {A : Type} (r : Result A) : Prop := exists e, r = Throw e.

(** [hay.includes(needle)] *)
Fixpoint includes (needle hay : string) : bool :=
  String.prefix needle hay ||
  match hay with
  | EmptyString => false
  | String _ rest => includes needle rest
  end.

(** ** JavaScript values *)

Module JS.

(** Numbers are rationals: every finite IEEE double is one, and the code only
    ever asks whether a number is zero. *)
Inductive JSON : Type :=
  | JNull
  | JBool (b : bool)
  | JNum (q : Q)
  | JStr (s : string)
  | JArr (items : list JSON)
  | JObj (fields : gmap string JSON).

Definition is_zero (q : Q) : bool := (Qnum q =? 0)%Z.

(** [ToBoolean]: [null], [false], [0] and the empty string are falsy. *)
Definition truthy (v : JSON) : bool :=
  match v with
  | JNull => false
  | JBool b => b
  | JNum q => negb (is_zero q)
  | JStr s => negb (String.eqb s "")
  | JArr _ => true
  | JObj _ => true
  end.

(** [undefined] is falsy. *)
Definition truthy_opt (o : option JSON) : bool :=
  match o with
  | Some v => truthy v
  | None => false
  end.

(** [v?.k] for the property names the code reads ([object], [entry],
    [changes], [field], [value], [messages], [statuses]): none of them is a
    property of an array, a string, a number or a boolean, so only an object
    can answer. [null?.k] is [undefined]. *)
Definition prop (v : JSON) (k : string) : option JSON :=
  match v with
  | JObj fields => fields !! k
  | _ => None
  end.

(** [o || d] *)
Definition or_default (o : option JSON) (d : JSON) : JSON :=
  match o with
  | Some v => if truthy v then v else d
  | None => d
  end.

(** [o === 'literal'] *)
Definition strict_eq_str (o : option JSON) (literal : string) : bool :=
  match o with
  | Some (JStr s) => String.eqb s literal
  | _ => false
  end.

(** What [for (const x of v)] iterates over: the elements of an array, the
    characters of a string (each a string of its own; where the characters
    are cut does not matter to the code, which finds no property on any of
    them); any other value is not iterable and the loop throws a
    [TypeError]. *)
Definition iterate (v : JSON) : Result (list JSON) :=
  match v with
  | JArr items => Return items
  | JStr s => Return (map (fun c => JStr (String c EmptyString)) (String.list_ascii_of_string s))
  | _ => Throw (TypeError "value is not iterable")
  end.

(** [v.length === 0]. Reading a property of [null] throws. *)
Definition length_is_zero (v : JSON) : Result bool :=
  match v with
  | JNull => Throw (TypeError "Cannot read properties of null (reading 'length')")
  | JArr items => Return (match items with [] => true | _ :: _ => false end)
  | JStr s => Return (String.eqb s "")
  | JObj fields =>
      Return (match fields !! "length" with
              | Some (JNum q) => is_zero q
              | _ => false
              end)
  | JBool _ => Return false
  | JNum _ => Return false
  end.

(** A truthy optional string, as in [params.mediaId ? ... : ...]. *)
Definition truthy_str (o : option string) : bool :=
  match o with
  | Some s => negb (String.eqb s "")
  | None => false
  end.

End JS.
Import JS.

(** ** Configuration *)

Module WhatsAppConfig.

Record IWhatsAppConfig : Type := mkConfig {
  businessAccountId : string;
  phoneNumberId : string;
  apiVersion : string;
  accessToken : string;
  webhookVerificationToken : string;
  apiBaseUrl : string;
  defaultLanguageCode : string
}.

Definition requiredVars : list string :=
  [ "WHATSAPP_BUSINESS_ACCOUNT_ID";
    "WHATSAPP_PHONE_NUMBER_ID";
    "WHATSAPP_API_VERSION";
    "WHATSAPP_ACCESS_TOKEN";
    "WHATSAPP_WEBHOOK_VERIFICATION_TOKEN" ].

(** [process.env]: a variable that is not set reads as [undefined]. *)
Abbreviation Env := (gmap string string).

(** [!process.env[varName]] *)
Definition missing (env : Env) (varName : string) : bool :=
  negb (truthy_str (env !! varName)).

(** What the check takes for missing: a variable that is not set, and also
    one that is set to the empty string. *)
Definition unset_or_empty (env : Env) (varName : string) : Prop :=
  env !! varName = None \/ env !! varName = Some "".

Definition missingVars (env : Env) : list string :=
  List.filter (missing env) requiredVars.

(** [process.env.X!]: the non-null assertion is erased at run time; the
    check that precedes it guarantees that the variable is set. *)
Definition env_get (env : Env) (varName : string) : string :=
  default "" (env !! varName).

(** [process.env.X || fallback] *)
Definition env_or (env : Env) (varName fallback : string) : string :=
  match env !! varName with
  | Some s => if String.eqb s "" then fallback else s
  | None => fallback
  end.

Definition fromEnv (env : Env) : Result IWhatsAppConfig :=
  match missingVars env with
  | _ :: _ =>
      Throw (Error ("Missing required environment variables: "
                    ++ String.concat ", " (missingVars env)))
  | [] =>
      Return (mkConfig
        (env_get env "WHATSAPP_BUSINESS_ACCOUNT_ID")
        (env_get env "WHATSAPP_PHONE_NUMBER_ID")
        (env_get env "WHATSAPP_API_VERSION")
        (env_get env "WHATSAPP_ACCESS_TOKEN")
        (env_get env "WHATSAPP_WEBHOOK_VERIFICATION_TOKEN")
        (env_or env "WHATSAPP_API_BASE_URL" "https://graph.facebook.com")
        (env_or env "WHATSAPP_DEFAULT_LANGUAGE_CODE" "en_US"))
  end.

Definition getMessagesEndpoint (cfg : IWhatsAppConfig) : string :=
  apiBaseUrl cfg ++ "/" ++ apiVersion cfg ++ "/" ++ phoneNumberId cfg ++ "/messages".

End WhatsAppConfig.
Import WhatsAppConfig.

(** ** Observable effects of the outbound path

    What the outbound code does to the outside world is kept in a log: the
    calls made on the injected message repository and the requests handed to
    [fetch]. *)

Abbreviation WhatsAppMessage := (gmap string JSON).

Record Request : Type := mkRequest {
  url : string;
  method : string;
  headers : list (string * string);
  body : option string
}.

(** A [Response] as the client uses it; [json] is what [response.json()]
    settles with: the parsed body, or a rejection when the body is not JSON. *)
Record Response : Type := mkResponse {
  ok : bool;
  status : N;
  statusText : string;
  json : Result JSON
}.

Inductive Effect : Type :=
  | RepositorySendMessage (message : WhatsAppMessage)
  | Fetch (request : Request).

Definition IO (A : Type) : Type := Result A * list Effect.

(** ** HTTP client *)

Module WhatsAppHttpClient.
Section Client.

(** The platform: [JSON.stringify] and the network behind [fetch]. *)
Variable JSON_stringify : JSON -> string.
Variable fetch : Request -> Result Response.

Definition request_url (config : IWhatsAppConfig) (endpoint : string) : string :=
  if String.prefix "http" endpoint
  then endpoint
  else apiBaseUrl config ++ "/" ++ apiVersion config ++ "/" ++ endpoint.

(** [await response.json().catch(() => ({}))] *)
Definition errorData (response : Response) : JSON :=
  match json response with
  | Return data => data
  | Throw _ => JObj ∅
  end.

Definition error_message (response : Response) : string :=
  "WhatsApp API error: " ++ pretty (status response) ++ " " ++ statusText response
    ++ " - " ++ JSON_stringify (errorData response).

Definition post_request (config : IWhatsAppConfig) (endpoint : string)
    (body : gmap string JSON) : Request :=
  mkRequest (request_url config endpoint) "POST"
    [ ("Content-Type", "application/json");
      ("Authorization", "Bearer " ++ accessToken config) ]
    (Some (JSON_stringify (JObj body))).

Definition post (config : IWhatsAppConfig) (endpoint : string)
    (body : gmap string JSON) : IO JSON :=
  let request := post_request config endpoint body in
  match fetch request with
  | Throw e => (Throw e, [Fetch request])
  | Return response =>
      if negb (ok response)
      then (Throw (Error (error_message response)), [Fetch request])
      else (json response, [Fetch request])
  end.

End Client.

Section Get.

Variable JSON_stringify : JSON -> string.
Variable fetch : Request -> Result Response.

(** The platform's URL class: [new URL(url)], one [searchParams.append] per
    entry of the query, then [toString()]. The constructor throws a
    [TypeError] when [url] is not a valid URL; nothing after it throws. *)
Variable URL_with_params : string -> list (string * string) -> Result string.

Definition get_request (config : IWhatsAppConfig) (target : string) : Request :=
  mkRequest target "GET" [ ("Authorization", "Bearer " ++ accessToken config) ] None.

(** [queryParams] is given by its entries, in the order [Object.entries]
    lists them. *)
Definition get (config : IWhatsAppConfig) (endpoint : string)
    (queryParams : list (string * string)) : IO JSON :=
  let url := request_url config endpoint in
  match URL_with_params url queryParams with
  | Throw e => (Throw e, [])
  | Return target =>
      let request := get_request config target in
      match fetch request with
      | Throw e => (Throw e, [Fetch request])
      | Return response =>
          if negb (ok response)
          then (Throw (Error (error_message JSON_stringify response)), [Fetch request])
          else (json response, [Fetch request])
      end
  end.

End Get.
End WhatsAppHttpClient.

(** ** Message repository *)

Module WhatsAppMessageRepository.
Section Repository.

Variable JSON_stringify : JSON -> string.
Variable fetch : Request -> Result Response.

(** [{ ...message, messaging_product: 'whatsapp' }] *)
Definition messageToSend (message : WhatsAppMessage) : WhatsAppMessage :=
  <["messaging_product" := JStr "whatsapp"]> message.

Definition sendMessage (config : IWhatsAppConfig) (message : WhatsAppMessage) : IO JSON :=
  WhatsAppHttpClient.post JSON_stringify fetch config
    (phoneNumberId config ++ "/messages") (messageToSend message).

End Repository.

Section ReadReceipts.

Variable JSON_stringify : JSON -> string.
Variable fetch : Request -> Result Response.

Definition read_receipt (messageId : string) : gmap string JSON :=
  <["message_id" := JStr messageId]>
    (<["status" := JStr "read"]>
      (<["messaging_product" := JStr "whatsapp"]> ∅)).

(** [try { await post(...); return true } catch { return false }] *)
Definition markMessageAsRead (config : IWhatsAppConfig) (messageId : string) : IO bool :=
  match WhatsAppHttpClient.post JSON_stringify fetch config
          (phoneNumberId config ++ "/messages") (read_receipt messageId) with
  | (Return _, effects) => (Return true, effects)
  | (Throw _, effects) => (Return false, effects)
  end.

(** [try { throw new Error(...) } catch { return 'unknown' }] *)
Definition getMessageStatus (messageId : string) : IO string :=
  match (Throw (Error "Message status can only be retrieved through webhooks in the WhatsApp Cloud API.")
         : Result string) with
  | Return s => (Return s, [])
  | Throw _ => (Return "unknown", [])
  end.

End ReadReceipts.
End WhatsAppMessageRepository.

(** ** Send-message use case *)

Module SendMessageUseCase.

(** The interface the use case is injected with. *)
Class IWhatsAppMessageRepository : Type := {
  repository_sendMessage : WhatsAppMessage -> IO JSON
}.

(** The production wiring of the container. *)
Definition production (JSON_stringify : JSON -> string)
    (fetch : Request -> Result Response) (config : IWhatsAppConfig)
    : IWhatsAppMessageRepository :=
  {| repository_sendMessage := WhatsAppMessageRepository.sendMessage JSON_stringify fetch config |}.

Inductive MediaType : Type := image | audio | document | video | sticker.

Definition mediaType_name (t : MediaType) : string :=
  match t with
  | image => "image"
  | audio => "audio"
  | document => "document"
  | video => "video"
  | sticker => "sticker"
  end.

Record SendMediaMessageParams : Type := mkMediaParams {
  to : string;
  mediaType : MediaType;
  mediaId : option string;
  mediaUrl : option string;
  caption : option string;
  filename : option string;
  replyToMessageId : option string
}.

(** [...(x ? { key: x } : {})] spread into an object under construction. *)
Definition spread_if (key : string) (x : option string) (o : gmap string JSON)
    : gmap string JSON :=
  match x with
  | Some s => if truthy_str x then <[key := JStr s]> o else o
  | None => o
  end.

Definition mediaContent (params : SendMediaMessageParams) : gmap string JSON :=
  spread_if "filename" (filename params)
    (spread_if "caption" (caption params)
      (spread_if "link" (mediaUrl params)
        (spread_if "id" (mediaId params) ∅))).

(** [this.messageRepository.sendMessage(message)] *)
Definition call_sendMessage {repository : IWhatsAppMessageRepository}
    (message : WhatsAppMessage) : IO JSON :=
  let '(result, effects) := repository_sendMessage message in
  (result, RepositorySendMessage message :: effects).

Definition sendMediaMessage {repository : IWhatsAppMessageRepository}
    (params : SendMediaMessageParams) : IO JSON :=
  if negb (truthy_str (mediaId params)) && negb (truthy_str (mediaUrl params))
  then (Throw (Error "Either mediaId or mediaUrl must be provided"), [])
  else
    let message : WhatsAppMessage :=
      <[mediaType_name (mediaType params) := JObj (mediaContent params)]>
        (<["type" := JStr (mediaType_name (mediaType params))]>
          (<["to" := JStr (to params)]>
            (<["recipient_type" := JStr "individual"]>
              (<["messaging_product" := JStr "whatsapp"]> ∅)))) in
    let message :=
      match replyToMessageId params with
      | Some id =>
          if truthy_str (replyToMessageId params)
          then <["context" := JObj (<["message_id" := JStr id]> ∅)]> message
          else message
      | None => message
      end in
    call_sendMessage message.

(** [if (replyToMessageId) message.context = { message_id: replyToMessageId }] *)
Definition with_context (replyToMessageId : option string) (message : WhatsAppMessage)
    : WhatsAppMessage :=
  match replyToMessageId with
  | Some id =>
      if truthy_str replyToMessageId
      then <["context" := JObj (<["message_id" := JStr id]> ∅)]> message
      else message
  | None => message
  end.

(** The properties every message built here starts with. *)
Definition envelope (to type : string) : WhatsAppMessage :=
  <["type" := JStr type]>
    (<["to" := JStr to]>
      (<["recipient_type" := JStr "individual"]>
        (<["messaging_product" := JStr "whatsapp"]> ∅))).

(** A property whose value is [undefined] is left out of the object: every
    read of it gives [undefined] either way, and [JSON.stringify] drops it. *)
Definition set_if_defined (key : string) (value : option JSON) (o : gmap string JSON)
    : gmap string JSON :=
  match value with
  | Some v => <[key := v]> o
  | None => o
  end.

Module Text.
Record SendTextMessageParams : Type := mkParams {
  to : string;
  text : string;
  previewUrl : option bool;
  replyToMessageId : option string
}.
End Text.

Definition sendTextMessage {repository : IWhatsAppMessageRepository}
    (params : Text.SendTextMessageParams) : IO JSON :=
  let text : gmap string JSON :=
    set_if_defined "preview_url" (JBool <$> Text.previewUrl params)
      (<["body" := JStr (Text.text params)]> ∅) in
  let message := <["text" := JObj text]> (envelope (Text.to params) "text") in
  let message := with_context (Text.replyToMessageId params) message in
  call_sendMessage message.

Module Interactive.
Inductive InteractiveType : Type := button | list_type | product | product_list.

Definition name (t : InteractiveType) : string :=
  match t with
  | button => "button"
  | list_type => "list"
  | product => "product"
  | product_list => "product_list"
  end.

Record Button : Type := mkButton { id : string; title : string }.

(** [listSections] is handed on as it is, so its sections stay JSON. *)
Record SendInteractiveMessageParams : Type := mkParams {
  to : string;
  interactiveType : InteractiveType;
  headerText : option string;
  bodyText : string;
  footerText : option string;
  buttons : option (list Button);
  listSections : option (list JSON);
  replyToMessageId : option string
}.
End Interactive.

(** [{ type: 'reply', reply: { id: button.id, title: button.title } }] *)
Definition reply_button (b : Interactive.Button) : JSON :=
  JObj (<["reply" := JObj (<["title" := JStr (Interactive.title b)]>
                            (<["id" := JStr (Interactive.id b)]> ∅))]>
         (<["type" := JStr "reply"]> ∅)).

(** An array is truthy even when it is empty, so [params.buttons] only asks
    whether the property is there. *)
Definition action (params : Interactive.SendInteractiveMessageParams) : gmap string JSON :=
  match Interactive.interactiveType params, Interactive.buttons params,
        Interactive.listSections params with
  | Interactive.button, Some buttons, _ =>
      <["buttons" := JArr (List.map reply_button buttons)]> ∅
  | Interactive.list_type, _, Some sections =>
      <["sections" := JArr sections]> (<["button" := JStr "Select an option"]> ∅)
  | _, _, _ => ∅
  end.

Definition header (params : Interactive.SendInteractiveMessageParams) : option JSON :=
  match Interactive.headerText params with
  | Some t =>
      if truthy_str (Interactive.headerText params)
      then Some (JObj (<["text" := JStr t]> (<["type" := JStr "text"]> ∅)))
      else None
  | None => None
  end.

Definition footer (params : Interactive.SendInteractiveMessageParams) : option JSON :=
  match Interactive.footerText params with
  | Some t =>
      if truthy_str (Interactive.footerText params)
      then Some (JObj (<["text" := JStr t]> ∅))
      else None
  | None => None
  end.

Definition interactive (params : Interactive.SendInteractiveMessageParams)
    : gmap string JSON :=
  set_if_defined "footer" (footer params)
    (set_if_defined "header" (header params)
      (<["action" := JObj (action params)]>
        (<["body" := JObj (<["text" := JStr (Interactive.bodyText params)]> ∅)]>
          (<["type" := JStr (Interactive.name (Interactive.interactiveType params))]> ∅)))).

Definition sendInteractiveMessage {repository : IWhatsAppMessageRepository}
    (params : Interactive.SendInteractiveMessageParams) : IO JSON :=
  let message :=
    <["interactive" := JObj (interactive params)]>
      (envelope (Interactive.to params) "interactive") in
  let message := with_context (Interactive.replyToMessageId params) message in
  call_sendMessage message.

Module Template.
Inductive ComponentType : Type := header | body | button.

Definition name (t : ComponentType) : string :=
  match t with
  | header => "header"
  | body => "body"
  | button => "button"
  end.

Record Component : Type := mkComponent {
  type : ComponentType;
  parameters : list (gmap string JSON)
}.

Record SendTemplateMessageParams : Type := mkParams {
  to : string;
  templateName : string;
  languageCode : string;
  components : option (list Component)
}.
End Template.

(** [{ type: component.type, parameters: component.parameters.map(p => p) }] *)
Definition templateComponent (component : Template.Component) : JSON :=
  JObj (<["parameters" := JArr (List.map JObj (Template.parameters component))]>
         (<["type" := JStr (Template.name (Template.type component))]> ∅)).

Definition template (params : Template.SendTemplateMessageParams) : gmap string JSON :=
  set_if_defined "components"
    ((fun cs => JArr (List.map templateComponent cs)) <$> Template.components params)
    (<["language" := JObj (<["code" := JStr (Template.languageCode params)]> ∅)]>
      (<["name" := JStr (Template.templateName params)]> ∅)).

Definition sendTemplateMessage {repository : IWhatsAppMessageRepository}
    (params : Template.SendTemplateMessageParams) : IO JSON :=
  let message :=
    <["template" := JObj (template params)]> (envelope (Template.to params) "template") in
  call_sendMessage message.

Definition sendCustomMessage {repository : IWhatsAppMessageRepository}
    (message : WhatsAppMessage) : IO JSON :=
  call_sendMessage message.

End SendMessageUseCase.

(** ** Webhook repository *)

Module WhatsAppWebhookRepository.
Local Open Scope list_scope.

Inductive WhatsAppWebhookEventType : Type :=
  | message
  | status
  | message_template_status_update.

#[global] Instance WhatsAppWebhookEventType_eq_dec : EqDecision WhatsAppWebhookEventType.
Proof. solve_decision. Defined.

Definition event_code (t : WhatsAppWebhookEventType) : nat :=
  match t with
  | message => 0
  | status => 1
  | message_template_status_update => 2
  end.

Definition event_of_code (n : nat) : WhatsAppWebhookEventType :=
  match n with
  | 0 => message
  | 1 => status
  | _ => message_template_status_update
  end.

#[global] Instance WhatsAppWebhookEventType_countable : Countable WhatsAppWebhookEventType.
Proof.
  apply (inj_countable' event_code event_of_code).
  intros []; reflexivity.
Defined.

(** A settled promise. *)
Inductive Promise : Type :=
  | Fulfilled
  | Rejected (reason : Exn).

(** How one call [handler(value)] ends: it returns a promise, which is later
    fulfilled or rejected, or it throws before returning one. *)
Inductive Outcome : Type :=
  | Returned (p : Promise)
  | Threw (e : Exn).

(** The record of one handler call: the event type it was registered for,
    its position in that type's handler array, the argument it received and
    how it ended. *)
Record Invocation : Type := mkInvocation {
  inv_event : WhatsAppWebhookEventType;
  inv_handler : nat;
  inv_data : JSON;
  inv_outcome : Outcome
}.

Definition failed (i : Invocation) : Prop := inv_outcome i <> Returned Fulfilled.

Definition verifyWebhook (config : IWhatsAppConfig) (mode token challenge : string)
    : option string :=
  if String.eqb mode "subscribe" && String.eqb token (webhookVerificationToken config)
  then Some challenge
  else None.

Section Dispatch.

(** Whatever the handlers act upon. A handler is a function of its argument
    and of that world; the run of a handler, including what it does after
    its first [await], is taken as one step. Handlers treat their argument as
    read-only and do not register further handlers while a payload is being
    dispatched. *)
Context {World : Type}.

Definition Handler : Type := JSON -> World -> Outcome * World.

(** [eventHandlers] *)
Definition Registry : Type := gmap WhatsAppWebhookEventType (list Handler).

(** Computations of the dispatcher: they may throw, they change the world
    through the handlers, and they leave the list of handler calls made. *)
Definition M (A : Type) : Type := World -> Result A * World * list Invocation.

Definition ret {A} (a : A) : M A := fun w => (Return a, w, []).

Definition throw {A} (e : Exn) : M A := fun w => (Throw e, w, []).

Definition bind {A B} (m : M A) (k : A -> M B) : M B :=
  fun w =>
    match m w with
    | (Return a, w1, t1) => let '(r, w2, t2) := k a w1 in (r, w2, t1 ++ t2)
    | (Throw e, w1, t1) => (Throw e, w1, t1)
    end.

Notation "'let*' x ':=' m 'in' k" := (bind m (fun x => k))
  (at level 10, x name, m at level 200, k at level 200, only parsing).

(** [try { m } catch (error) { h error }] *)
Definition try_catch {A} (m : M A) (h : Exn -> M A) : M A :=
  fun w =>
    match m w with
    | (Return a, w1, t1) => (Return a, w1, t1)
    | (Throw e, w1, t1) => let '(r, w2, t2) := h e w1 in (r, w2, t1 ++ t2)
    end.

Definition lift {A} (r : Result A) : M A :=
  match r with
  | Return a => ret a
  | Throw e => throw e
  end.

(** [for (const x of xs) { body x }] over the items already obtained from
    the iterator; an exception leaves the loop. *)
Fixpoint for_each (xs : list JSON) (body : JSON -> M unit) : M unit :=
  match xs with
  | [] => ret tt
  | x :: rest => let* _ := body x in for_each rest body
  end.

Definition for_of (v : JSON) (body : JSON -> M unit) : M unit :=
  let* xs := lift (iterate v) in
  for_each xs body.

Definition registerEventHandler (eventType : WhatsAppWebhookEventType)
    (handler : Handler) (eventHandlers : Registry) : Registry :=
  let eventHandlers :=
    match eventHandlers !! eventType with
    | Some _ => eventHandlers
    | None => <[eventType := []]> eventHandlers
    end in
  match eventHandlers !! eventType with
  | Some handlers => <[eventType := handlers ++ [handler]]> eventHandlers
  | None => eventHandlers
  end.

(** One call [handler(value)] inside [handlers.map]: the call is recorded;
    a synchronous throw propagates, otherwise the promise is returned. *)
Definition invoke (eventType : WhatsAppWebhookEventType) (index : nat)
    (handler : Handler) (value : JSON) : M Promise :=
  fun w =>
    let '(o, w1) := handler value w in
    (match o with
     | Returned p => Return p
     | Threw e => Throw e
     end, w1, [mkInvocation eventType index value o]).

(** [handlers.map(handler => handler(value))], from position [index] on. *)
Fixpoint map_handlers (eventType : WhatsAppWebhookEventType) (index : nat)
    (handlers : list Handler) (value : JSON) : M (list Promise) :=
  match handlers with
  | [] => ret []
  | handler :: rest =>
      let* p := invoke eventType index handler value in
      let* ps := map_handlers eventType (S index) rest value in
      ret (p :: ps)
  end.

(** [await Promise.all(promises)]: throws the reason of a rejected promise.
    When several reject, the first in the array is taken; the caller only
    logs the reason. *)
Fixpoint await_all (promises : list Promise) : M unit :=
  match promises with
  | [] => ret tt
  | Fulfilled :: rest => await_all rest
  | Rejected reason :: _ => throw reason
  end.

Definition dispatch (eventHandlers : Registry) (eventType : WhatsAppWebhookEventType)
    (value : JSON) : M unit :=
  let handlers := default [] (eventHandlers !! eventType) in
  let* promises := map_handlers eventType 0 handlers value in
  await_all promises.

Definition processMessages (eventHandlers : Registry) (value : JSON) : M unit :=
  let messages := or_default (prop value "messages") (JArr []) in
  let* empty := lift (length_is_zero messages) in
  if empty then ret tt
  else dispatch eventHandlers message value.

Definition processStatuses (eventHandlers : Registry) (value : JSON) : M unit :=
  let statuses := or_default (prop value "statuses") (JArr []) in
  let* empty := lift (length_is_zero statuses) in
  if empty then ret tt
  else dispatch eventHandlers status value.

(** The body of the inner loop, for one [change]. *)
Definition process_change (eventHandlers : Registry) (change : JSON) : M unit :=
  if negb (strict_eq_str (prop change "field") "messages")
  then ret tt
  else
    let value := or_default (prop change "value") (JObj ∅) in
    let* _ := (if truthy_opt (prop value "messages")
               then processMessages eventHandlers value
               else ret tt) in
    if truthy_opt (prop value "statuses")
    then processStatuses eventHandlers value
    else ret tt.

(** The body of the outer loop, for one [entry]. *)
Definition process_entry (eventHandlers : Registry) (entry : JSON) : M unit :=
  let changes := or_default (prop entry "changes") (JArr []) in
  for_of changes (process_change eventHandlers).

Definition processWebhookPayload (eventHandlers : Registry) (payload : JSON) : M bool :=
  try_catch
    (if negb (strict_eq_str (prop payload "object") "whatsapp_business_account")
     then ret false
     else
       let entries := or_default (prop payload "entry") (JArr []) in
       let* _ := for_of entries (process_entry eventHandlers) in
       ret true)
    (fun _ => ret false).

(** *** Notions used to state the properties *)

(** [fail_closed x]: if some call recorded in the run [x] failed, the run
    ended by throwing. *)
Definition fail_closed {A} (x : Result A * World * list Invocation) : Prop :=
  Exists failed (snd x) -> throws (fst (fst x)).


End Dispatch.

(** [for_messages_change payload i]: the call [i] was made for a change of
    [payload] whose [field] is ['messages'], with that change's value as its
    argument, on behalf of the ['message'] or the ['status'] event type. *)
Definition for_messages_change (payload : JSON) (i : Invocation) : Prop :=
  exists entries entry changes change,
    iterate (or_default (prop payload "entry") (JArr [])) = Return entries /\
    entry ∈ entries /\
    iterate (or_default (prop entry "changes") (JArr [])) = Return changes /\
    change ∈ changes /\
    prop change "field" = Some (JStr "messages") /\
    inv_data i = or_default (prop change "value") (JObj ∅) /\
    (inv_event i = message \/ inv_event i = status).

(** A property that is absent or falsy, or else the array [items]. *)
Definition absent_or_array (o : option JSON) (items : list JSON) : Prop :=
  (truthy_opt o = false /\ items = []) \/ o = Some (JArr items).

(** A payload that is shaped as the provider documents it and carries
    nothing to dispatch: [entry] and every [changes] are arrays when present,
    and every change for ['messages'] has [messages] and [statuses] absent or
    empty. *)
Definition silent_change (change : JSON) : Prop :=
  prop change "field" = Some (JStr "messages") ->
  absent_or_array (prop (or_default (prop change "value") (JObj ∅)) "messages") [] /\
  absent_or_array (prop (or_default (prop change "value") (JObj ∅)) "statuses") [].

Definition silent_entry (entry : JSON) : Prop :=
  exists changes,
    absent_or_array (prop entry "changes") changes /\ Forall silent_change changes.

Definition silent_payload (payload : JSON) : Prop :=
  prop payload "object" = Some (JStr "whatsapp_business_account") /\
  exists entries,
    absent_or_array (prop payload "entry") entries /\ Forall silent_entry entries.

End WhatsAppWebhookRepository.

(** ** Inputs taken from the test suites

    The concrete configurations, payloads, handlers and responses that the
    repository's tests use, and a few variations of them. *)

Module Fixtures.
Import WhatsAppWebhookRepository SendMessageUseCase.

Definition mockConfig : IWhatsAppConfig :=
  mkConfig "test-business-id" "test-phone-id" "v15.0" "test-access-token"
    "test-verification-token" "https://graph.facebook.com" "en_US".

(** [process.env] of the configuration tests. *)
Definition test_env : Env :=
  <["NODE_ENV" := "test"]>
  (<["WHATSAPP_BUSINESS_ACCOUNT_ID" := "test-business-id"]>
  (<["WHATSAPP_PHONE_NUMBER_ID" := "test-phone-id"]>
  (<["WHATSAPP_API_VERSION" := "v15.0"]>
  (<["WHATSAPP_ACCESS_TOKEN" := "test-access-token"]>
  (<["WHATSAPP_WEBHOOK_VERIFICATION_TOKEN" := "test-verification-token"]> ∅))))).

(** The same environment after [delete process.env.WHATSAPP_ACCESS_TOKEN]. *)
Definition env_without_token : Env := delete "WHATSAPP_ACCESS_TOKEN" test_env.

(** The same environment with [WHATSAPP_ACCESS_TOKEN=] (set, but empty). *)
Definition env_empty_token : Env := <["WHATSAPP_ACCESS_TOKEN" := ""]> test_env.

Definition obj (fields : list (string * JSON)) : JSON := JObj (list_to_map fields).

Definition text_message : JSON :=
  obj [ ("id", JStr "test-message-id"); ("from", JStr "test-phone");
        ("type", JStr "text"); ("text", obj [("body", JStr "Hello")]) ].

Definition value_with_messages : JSON := obj [("messages", JArr [text_message])].

Definition delivered_status : JSON :=
  obj [ ("id", JStr "test-message-id"); ("status", JStr "delivered");
        ("timestamp", JStr "1234567890"); ("recipient_id", JStr "test-phone") ].

Definition value_with_statuses : JSON := obj [("statuses", JArr [delivered_status])].

Definition change_of (field : string) (value : JSON) : JSON :=
  obj [("field", JStr field); ("value", value)].

Definition payload_of (entries : list JSON) : JSON :=
  obj [("object", JStr "whatsapp_business_account"); ("entry", JArr entries)].

Definition entry_of (changes : list JSON) : JSON :=
  obj [("id", JStr "test-entry-id"); ("changes", JArr changes)].

Definition payload_invalid_object : JSON :=
  obj [("object", JStr "invalid-object"); ("entry", JArr [])].

Definition payload_with_messages : JSON :=
  payload_of [entry_of [change_of "messages" value_with_messages]].

Definition payload_with_statuses : JSON :=
  payload_of [entry_of [change_of "messages" value_with_statuses]].



(** [entry] is a number instead of an array. *)
Definition payload_entry_number : JSON :=
  obj [("object", JStr "whatsapp_business_account"); ("entry", JNum 5)].

(** A change for another field, carrying messages all the same. *)
Definition payload_other_field : JSON :=
  payload_of [entry_of [change_of "account_update" value_with_messages]].

(** [vi.fn().mockResolvedValue(undefined)] and
    [vi.fn().mockRejectedValue(new Error('Handler error'))]; the world is the
    number of calls the mocks have received. *)
Definition mock_resolved : @Handler nat :=
  fun _ calls => (Returned Fulfilled, S calls).

Definition mock_rejected : @Handler nat :=
  fun _ calls => (Returned (Rejected (Error "Handler error")), S calls).

(** The registries the tests build. *)
Definition one_rejecting_handler : @Registry nat :=
  registerEventHandler message mock_rejected ∅.

Definition two_resolving_handlers : @Registry nat :=
  registerEventHandler message mock_resolved
    (registerEventHandler message mock_resolved ∅).

(** A payload with nothing to dispatch: an entry without changes, a change
    for ['messages'] with an empty array, and a change for another field. *)
Definition payload_nothing : JSON :=
  payload_of [ obj [("id", JStr "test-entry-id")];
               entry_of [ change_of "messages" (obj [("messages", JArr [])]);
                          change_of "account_update" value_with_messages ] ].

Definition quote : string := String (Ascii.ascii_of_nat 34) EmptyString.

(** A serializer to run the closed examples with; the theorems hold for any. *)
Fixpoint sample_stringify (v : JSON) : string :=
  match v with
  | JNull => "null"
  | JBool b => if b then "true" else "false"
  | JNum q => pretty (Qnum q)
  | JStr s => quote ++ s ++ quote
  | JArr items => "[" ++ String.concat "," (List.map sample_stringify items) ++ "]"
  | JObj fields =>
      "{" ++ String.concat ","
               (map_fold (fun k x acc => (quote ++ k ++ quote ++ ":" ++ sample_stringify x) :: acc)
                         [] fields) ++ "}"
  end.

(** The error responses of the client tests, and a gateway error whose body
    is an HTML page. *)
Definition bad_request : Response :=
  mkResponse false 400 "Bad Request"
    (Return (obj [("error", obj [("message", JStr "Invalid parameter")])])).

Definition bad_gateway : Response :=
  mkResponse false 502 "Bad Gateway"
    (Throw (SyntaxError "Unexpected token < in JSON at position 0")).

Definition hello_message : WhatsAppMessage :=
  list_to_map [ ("to", JStr "+1234567890"); ("type", JStr "text");
                ("text", obj [("body", JStr "Hello, world!")]) ].

Definition media_params_without_media : SendMediaMessageParams :=
  mkMediaParams "+1234567890" image None None (Some "a caption") None None.

(** The parameters of the use-case tests. *)
Definition media_params_with_id : SendMediaMessageParams :=
  mkMediaParams "+1234567890" image (Some "image-id-123") None (Some "Nice picture")
    None None.

Definition text_params_reply : Text.SendTextMessageParams :=
  Text.mkParams "+1234567890" "This is a reply" None (Some "wamid.previous123").

(** A repository that answers every message with the same response, as the
    mock of the use-case tests does. *)
Definition success_response : JSON :=
  obj [ ("messaging_product", JStr "whatsapp");
        ("messages", JArr [obj [("id", JStr "wamid.test123")]]) ].

Definition mock_repository : IWhatsAppMessageRepository :=
  {| repository_sendMessage := fun _ => (Return success_response, []) |}.

Definition ok_response : Response :=
  mkResponse true 200 "OK" (Return success_response).

(** A stand-in for the URL class: a URL has to start with a scheme; the
    query is appended after a question mark. *)
Definition sample_URL_with_params (url : string) (query : list (string * string))
    : Result string :=
  if String.prefix "http" url
  then Return (url ++ "?" ++ String.concat "&" (List.map (fun kv => fst kv ++ "=" ++ snd kv) query))
  else Throw (TypeError "Invalid URL").

(** A configuration whose base URL is not a URL. *)
Definition config_without_scheme : IWhatsAppConfig :=
  mkConfig "test-business-id" "test-phone-id" "v15.0" "test-access-token"
    "test-verification-token" "graph.facebook.com" "en_US".

(** A handler that throws before returning a promise. *)
Definition mock_throwing : @Handler nat :=
  fun _ calls => (Threw (Error "Handler error"), S calls).


(** A value whose [messages] is a string, not an array. *)
Definition value_with_text : JSON := obj [("messages", JStr "hello")].

Definition no_handlers : @Registry nat := ∅.

Definition handlers_around_a_thrower : @Registry nat :=
  registerEventHandler message mock_resolved
    (registerEventHandler message mock_throwing
      (registerEventHandler message mock_resolved ∅)).


End Fixtures.

(** * Properties *)

(** ** Strings *)

Lemma append_cons (a : Ascii.ascii) (s t : string) :
  String a s ++ t = String a (s ++ t).
Proof. reflexivity. Qed.

Lemma append_assoc (s t u : string) : (s ++ t) ++ u = s ++ t ++ u.
Proof.
  induction s as [|a s IH]; [reflexivity|].
  rewrite !append_cons, IH. reflexivity.
Qed.

Lemma append_nil_r (s : string) : s ++ "" = s.
Proof.
  induction s as [|a s IH]; [reflexivity|].
  rewrite append_cons, IH. reflexivity.
Qed.

Lemma prefix_app (s t : string) : String.prefix s (s ++ t) = true.
Proof.
  induction s as [|a s IH].
  - destruct t; reflexivity.
  - rewrite append_cons. simpl.
    destruct (Ascii.ascii_dec a a); [exact IH | congruence].
Qed.

Lemma includes_prefix (needle hay : string) :
  String.prefix needle hay = true -> includes needle hay = true.
Proof. destruct hay; simpl; intros ->; reflexivity. Qed.

Lemma includes_app (needle before after : string) :
  includes needle (before ++ needle ++ after) = true.
Proof.
  induction before as [|a before IH].
  - apply includes_prefix. exact (prefix_app needle after).
  - rewrite append_cons. simpl. rewrite IH. apply orb_true_r.
Qed.

(** ** Configuration *)

Module WhatsAppConfigFacts.

Lemma missing_spec (env : Env) (v : string) :
  missing env v = true <-> unset_or_empty env v.
Proof.
  unfold missing, unset_or_empty, truthy_str.
  destruct (env !! v) as [s|]; simpl.
  - destruct (String.eqb_spec s ""); simpl; split; intros H;
      try discriminate; try reflexivity; subst; auto.
    destruct H as [H|H]; [discriminate | congruence].
  - split; auto.
Qed.

Lemma present_get (env : Env) (v : string) :
  ~ unset_or_empty env v ->
  missing env v = false /\ env !! v = Some (env_get env v) /\ env_get env v <> "".
Proof.
  intros H. split.
  - destruct (missing env v) eqn:E; [|reflexivity].
    exfalso. apply H, missing_spec, E.
  - unfold unset_or_empty, env_get in *. destruct (env !! v) as [s|]; simpl.
    + split; [reflexivity|]. intros ->. apply H. right. reflexivity.
    + exfalso. apply H. left. reflexivity.
Qed.

Lemma missingVars_spec (env : Env) (v : string) :
  v ∈ missingVars env <-> v ∈ requiredVars /\ unset_or_empty env v.
Proof.
  unfold missingVars. rewrite !list_elem_of_In, filter_In, missing_spec.
  reflexivity.
Qed.

Lemma fromEnv_throws (env : Env) :
  throws (fromEnv env) <-> missingVars env <> [].
Proof.
  unfold fromEnv, throws. destruct (missingVars env) eqn:E.
  - split; [intros [e He]; discriminate | congruence].
  - split; [discriminate | eauto].
Qed.

(** C8, as amended: [fromEnv] throws exactly when one of the five required
    variables is unset or set to the empty string; the error names those
    variables; when all five are set and non-empty the configuration holds
    their values, and the base URL and the language code are the values of
    their variables when set and non-empty, the defaults otherwise. *)
Theorem fromEnv_spec (env : Env) :
  (throws (fromEnv env) <->
     exists v, v ∈ requiredVars /\ unset_or_empty env v) /\
  (forall e, fromEnv env = Throw e ->
     exists names,
       e = Error ("Missing required environment variables: " ++ String.concat ", " names) /\
       forall v, v ∈ names <-> v ∈ requiredVars /\ unset_or_empty env v) /\
  ((forall v, v ∈ requiredVars -> ~ unset_or_empty env v) ->
     exists account phone version token secret,
       env !! "WHATSAPP_BUSINESS_ACCOUNT_ID" = Some account /\
       env !! "WHATSAPP_PHONE_NUMBER_ID" = Some phone /\
       env !! "WHATSAPP_API_VERSION" = Some version /\
       env !! "WHATSAPP_ACCESS_TOKEN" = Some token /\
       env !! "WHATSAPP_WEBHOOK_VERIFICATION_TOKEN" = Some secret /\
       fromEnv env = Return (mkConfig account phone version token secret
         (match env !! "WHATSAPP_API_BASE_URL" with
          | Some s => if decide (s = "") then "https://graph.facebook.com" else s
          | None => "https://graph.facebook.com"
          end)
         (match env !! "WHATSAPP_DEFAULT_LANGUAGE_CODE" with
          | Some s => if decide (s = "") then "en_US" else s
          | None => "en_US"
          end))).
Proof.
  split; [|split].
  - rewrite fromEnv_throws. split.
    + intros H. destruct (missingVars env) as [|v l] eqn:E; [congruence|].
      exists v. apply missingVars_spec. rewrite E. left.
    + intros [v Hv] E. apply missingVars_spec in Hv. rewrite E in Hv.
      inversion Hv.
  - intros e He. exists (missingVars env). split.
    + unfold fromEnv in He. destruct (missingVars env); congruence.
    + apply missingVars_spec.
  - intros H.
    assert (Hreq : forall v, In v requiredVars -> ~ unset_or_empty env v).
    { intros v Hv. apply H, list_elem_of_In, Hv. }
    simpl in Hreq.
    destruct (present_get env "WHATSAPP_BUSINESS_ACCOUNT_ID") as (M1 & G1 & _); [auto 10|].
    destruct (present_get env "WHATSAPP_PHONE_NUMBER_ID") as (M2 & G2 & _); [auto 10|].
    destruct (present_get env "WHATSAPP_API_VERSION") as (M3 & G3 & _); [auto 10|].
    destruct (present_get env "WHATSAPP_ACCESS_TOKEN") as (M4 & G4 & _); [auto 10|].
    destruct (present_get env "WHATSAPP_WEBHOOK_VERIFICATION_TOKEN") as (M5 & G5 & _); [auto 10|].
    do 5 eexists. repeat (split; [eassumption|]).
    unfold fromEnv, missingVars. simpl. rewrite M1, M2, M3, M4, M5.
    do 2 f_equal; unfold env_or.
    + destruct (env !! "WHATSAPP_API_BASE_URL") as [s|]; [|reflexivity].
      destruct (String.eqb_spec s ""), (decide (s = "")); congruence.
    + destruct (env !! "WHATSAPP_DEFAULT_LANGUAGE_CODE") as [s|]; [|reflexivity].
      destruct (String.eqb_spec s ""), (decide (s = "")); congruence.
Qed.

(** C8, as stated, fails: with every required variable set and
    [WHATSAPP_ACCESS_TOKEN] set to the empty string, [fromEnv] throws. *)
Lemma fromEnv_throws_on_empty_variable :
  fromEnv Fixtures.env_empty_token
    = Throw (Error "Missing required environment variables: WHATSAPP_ACCESS_TOKEN") /\
  Forall (fun v => is_Some (Fixtures.env_empty_token !! v)) requiredVars /\
  ~ (throws (fromEnv Fixtures.env_empty_token) <->
       exists v, v ∈ requiredVars /\ Fixtures.env_empty_token !! v = None).
Proof.
  assert (Hset : Forall (fun v => is_Some (Fixtures.env_empty_token !! v)) requiredVars).
  { repeat constructor; vm_compute; eauto. }
  split; [vm_compute; reflexivity|]. split; [exact Hset|].
  intros [Hthrows _].
  destruct Hthrows as (v & Hv & Hnone).
  - exists (Error "Missing required environment variables: WHATSAPP_ACCESS_TOKEN").
    vm_compute. reflexivity.
  - rewrite Forall_forall in Hset. apply Hset in Hv.
    rewrite Hnone in Hv. destruct Hv as [x Hx]. discriminate.
Qed.

(** The configuration tests. *)
Example fromEnv_test_env :
  fromEnv Fixtures.test_env = Return Fixtures.mockConfig.
Proof. vm_compute. reflexivity. Qed.

Example fromEnv_missing_token :
  fromEnv Fixtures.env_without_token
    = Throw (Error "Missing required environment variables: WHATSAPP_ACCESS_TOKEN").
Proof. vm_compute. reflexivity. Qed.

End WhatsAppConfigFacts.

(** ** HTTP client and message repository *)

Module WhatsAppHttpClientFacts.
Import WhatsAppHttpClient WhatsAppMessageRepository.

Section Facts.
Variable JSON_stringify : JSON -> string.
Variable fetch : Request -> Result Response.

Lemma post_issues_one_request (config : IWhatsAppConfig) (endpoint : string)
    (body : gmap string JSON) :
  snd (post JSON_stringify fetch config endpoint body)
    = [Fetch (post_request JSON_stringify config endpoint body)].
Proof.
  unfold post. destruct (fetch _) as [response|e]; [|reflexivity].
  destruct (negb (ok response)); reflexivity.
Qed.

Lemma error_message_includes (response : Response) :
  let m := error_message JSON_stringify response in
  includes (pretty (status response)) m = true /\
  includes (statusText response) m = true /\
  includes (JSON_stringify (errorData response)) m = true.
Proof.
  unfold error_message. repeat split.
  - apply (includes_app _ "WhatsApp API error: ").
  - set (rest := " - " ++ _).
    replace ("WhatsApp API error: " ++ pretty (status response) ++ " " ++ statusText response ++ rest)
      with (("WhatsApp API error: " ++ pretty (status response) ++ " ") ++ statusText response ++ rest).
    + apply includes_app.
    + rewrite !append_assoc. reflexivity.
  - replace ("WhatsApp API error: " ++ pretty (status response) ++ " " ++ statusText response
              ++ " - " ++ JSON_stringify (errorData response))
      with (("WhatsApp API error: " ++ pretty (status response) ++ " " ++ statusText response
              ++ " - ") ++ JSON_stringify (errorData response) ++ "").
    + apply includes_app.
    + rewrite !append_assoc, append_nil_r. reflexivity.
Qed.

(** C5, as amended: when the response is not ok, [post] (and [sendMessage]
    through it) throws an [Error] whose message contains the decimal status
    code, the status text, and the serialization of the response's JSON body,
    or of an empty object when the body cannot be parsed as JSON. *)
Theorem post_throws_when_not_ok (config : IWhatsAppConfig) (endpoint : string)
    (body : gmap string JSON) (response : Response) :
  fetch (post_request JSON_stringify config endpoint body) = Return response ->
  ok response = false ->
  let data := match json response with
              | Return parsed => parsed
              | Throw _ => JObj ∅
              end in
  let m := "WhatsApp API error: " ++ pretty (status response) ++ " "
             ++ statusText response ++ " - " ++ JSON_stringify data in
  fst (post JSON_stringify fetch config endpoint body) = Throw (Error m) /\
  includes (pretty (status response)) m = true /\
  includes (statusText response) m = true /\
  includes (JSON_stringify data) m = true /\
  (forall message : WhatsAppMessage,
     endpoint = phoneNumberId config ++ "/messages" ->
     body = messageToSend message ->
     fst (sendMessage JSON_stringify fetch config message) = Throw (Error m)).
Proof.
  intros Hfetch Hok data m.
  assert (Hpost : fst (post JSON_stringify fetch config endpoint body) = Throw (Error m)).
  { unfold post. rewrite Hfetch, Hok. reflexivity. }
  split; [exact Hpost|].
  destruct (error_message_includes response) as (H1 & H2 & H3).
  repeat split; try assumption.
  intros message -> ->. exact Hpost.
Qed.

(** C3: the body [sendMessage] hands to [post], and so to the request, is the
    input message with [messaging_product] set to ['whatsapp']; every other
    property is the input's. *)
Theorem sendMessage_forces_messaging_product (config : IWhatsAppConfig)
    (message : WhatsAppMessage) :
  sendMessage JSON_stringify fetch config message
    = post JSON_stringify fetch config (phoneNumberId config ++ "/messages")
        (messageToSend message) /\
  snd (sendMessage JSON_stringify fetch config message)
    = [Fetch (mkRequest
                (request_url config (phoneNumberId config ++ "/messages")) "POST"
                [ ("Content-Type", "application/json");
                  ("Authorization", "Bearer " ++ accessToken config) ]
                (Some (JSON_stringify (JObj (messageToSend message)))))] /\
  messageToSend message !! "messaging_product" = Some (JStr "whatsapp") /\
  (forall k : string,
     k <> "messaging_product" -> messageToSend message !! k = message !! k).
Proof.
  split; [reflexivity|]. split; [apply post_issues_one_request|].
  unfold messageToSend. split.
  - apply lookup_insert_eq.
  - intros k Hk. apply lookup_insert_ne. congruence.
Qed.

End Facts.

(** The error response of the client tests, through [post_throws_when_not_ok]. *)
Lemma post_throws_when_not_ok_witness :
  ok Fixtures.bad_request = false /\
  exists m,
    fst (post Fixtures.sample_stringify (fun _ => Return Fixtures.bad_request)
           Fixtures.mockConfig "test-phone-id/messages" Fixtures.hello_message)
      = Throw (Error m) /\
    includes "WhatsApp API error: 400 Bad Request" m = true.
Proof.
  split; [reflexivity|].
  destruct (post_throws_when_not_ok Fixtures.sample_stringify
              (fun _ => Return Fixtures.bad_request) Fixtures.mockConfig
              "test-phone-id/messages" Fixtures.hello_message Fixtures.bad_request
              eq_refl eq_refl) as (Hpost & _).
  eexists. split; [exact Hpost|]. vm_compute. reflexivity.
Defined.

(** C5, as stated, fails: a 502 whose body is an HTML page makes [post] throw
    a message that ends in the serialization of an empty object; there is no
    response body in it. *)
Lemma post_error_without_json_body :
  ok Fixtures.bad_gateway = false /\
  fst (post Fixtures.sample_stringify (fun _ => Return Fixtures.bad_gateway)
         Fixtures.mockConfig "test-phone-id/messages" Fixtures.hello_message)
    = Throw (Error "WhatsApp API error: 502 Bad Gateway - {}") /\
  ~ (exists parsed,
       json Fixtures.bad_gateway = Return parsed /\
       includes (Fixtures.sample_stringify parsed)
                "WhatsApp API error: 502 Bad Gateway - {}" = true).
Proof.
  split; [reflexivity|]. split; [vm_compute; reflexivity|].
  intros (parsed & Hjson & _). discriminate Hjson.
Qed.

End WhatsAppHttpClientFacts.

(** ** Send-message use case *)

Module SendMessageUseCaseFacts.
Import SendMessageUseCase.

(** C9: when both [mediaId] and [mediaUrl] are absent, [sendMediaMessage]
    throws the validation error and leaves no effect: the repository's
    [sendMessage] is not called and no request is issued. *)
Theorem sendMediaMessage_requires_media (repository : IWhatsAppMessageRepository)
    (params : SendMediaMessageParams) :
  mediaId params = None ->
  mediaUrl params = None ->
  sendMediaMessage params
    = (Throw (Error "Either mediaId or mediaUrl must be provided"), []).
Proof.
  intros Hid Hurl. unfold sendMediaMessage. rewrite Hid, Hurl. reflexivity.
Qed.

Lemma sendMediaMessage_requires_media_witness :
  @sendMediaMessage
     (production Fixtures.sample_stringify (fun _ => Return Fixtures.bad_request)
        Fixtures.mockConfig)
     Fixtures.media_params_without_media
    = (Throw (Error "Either mediaId or mediaUrl must be provided"), []).
Proof.
  apply (sendMediaMessage_requires_media _ Fixtures.media_params_without_media);
    reflexivity.
Defined.

End SendMessageUseCaseFacts.

(** ** Webhook repository *)

Module WhatsAppWebhookRepositoryFacts.
Import WhatsAppWebhookRepository.
Local Open Scope list_scope.

(** C1: [verifyWebhook] returns the challenge exactly when the mode is
    ['subscribe'] and the token is the configured one, and [null] in every
    other case. *)
Theorem verifyWebhook_spec (config : IWhatsAppConfig) (mode token challenge : string) :
  (verifyWebhook config mode token challenge = Some challenge <->
     mode = "subscribe" /\ token = webhookVerificationToken config) /\
  (verifyWebhook config mode token challenge = None <->
     ~ (mode = "subscribe" /\ token = webhookVerificationToken config)).
Proof.
  unfold verifyWebhook.
  destruct (String.eqb_spec mode "subscribe") as [Hm|Hm];
    destruct (String.eqb_spec token (webhookVerificationToken config)) as [Ht|Ht];
    simpl; repeat split; try tauto; try discriminate; intros H; tauto.
Qed.

(** The verification tests. *)
Example verifyWebhook_tests :
  verifyWebhook Fixtures.mockConfig "subscribe" "test-verification-token" "test-challenge"
    = Some "test-challenge" /\
  verifyWebhook Fixtures.mockConfig "invalid-mode" "test-verification-token" "test-challenge"
    = None /\
  verifyWebhook Fixtures.mockConfig "subscribe" "invalid-token" "test-challenge" = None.
Proof. repeat split. Qed.

Lemma strict_eq_str_spec (o : option JSON) (literal : string) :
  strict_eq_str o literal = true <-> o = Some (JStr literal).
Proof.
  unfold strict_eq_str. destruct o as [[]|]; try (split; congruence).
  destruct (String.eqb_spec s literal); split; congruence.
Qed.

Lemma strict_eq_str_false (o : option JSON) (literal : string) :
  o <> Some (JStr literal) -> strict_eq_str o literal = false.
Proof.
  intros H. destruct (strict_eq_str o literal) eqn:E; [|reflexivity].
  apply strict_eq_str_spec in E. contradiction.
Qed.

Section DispatchFacts.
Context {World : Type}.
Implicit Types (eventHandlers : @Registry World) (w : World) (tr : list Invocation).

(** *** Registration *)

Lemma registerEventHandler_lookup eventHandlers eventType (handler : Handler) :
  registerEventHandler eventType handler eventHandlers !! eventType
    = Some (default [] (eventHandlers !! eventType) ++ [handler]).
Proof.
  unfold registerEventHandler, Registry in *.
  destruct (eventHandlers !! eventType) as [hs|] eqn:E.
  - rewrite E. simpl. apply lookup_insert_eq.
  - rewrite lookup_insert_eq. simpl. apply lookup_insert_eq.
Qed.

Lemma registerEventHandler_other eventHandlers eventType other (handler : Handler) :
  other <> eventType ->
  registerEventHandler eventType handler eventHandlers !! other = eventHandlers !! other.
Proof.
  intros Hne. unfold registerEventHandler, Registry in *.
  destruct (eventHandlers !! eventType) as [hs|] eqn:E.
  - rewrite E. apply lookup_insert_ne. congruence.
  - rewrite lookup_insert_eq, !lookup_insert_ne by congruence. reflexivity.
Qed.

(** Registering [handlers] one after the other appends them, in order, to
    the array of their event type. *)
Lemma registerEventHandler_all eventType (handlers : list (@Handler World)) :
  forall eventHandlers,
    default [] (foldl (fun registry handler =>
                         registerEventHandler eventType handler registry)
                      eventHandlers handlers !! eventType)
      = default [] (eventHandlers !! eventType) ++ handlers.
Proof.
  induction handlers as [|h hs IH]; intros eventHandlers; simpl.
  - rewrite app_nil_r. reflexivity.
  - rewrite IH, registerEventHandler_lookup. simpl.
    rewrite <- app_assoc. reflexivity.
Qed.

(** *** A failed call makes the run throw *)

Lemma fail_closed_nil {A} (r : Result A) w : fail_closed (r, w, []).
Proof. intros H. inversion H. Qed.

Lemma fail_closed_bind {A B} (m : M A) (k : A -> M B) w :
  fail_closed (m w) -> (forall a w1, fail_closed (k a w1)) -> fail_closed (bind m k w).
Proof.
  unfold fail_closed, bind. intros Hm Hk.
  destruct (m w) as [[[a|e] w1] t1]; simpl in *.
  - specialize (Hk a w1). destruct (k a w1) as [[r w2] t2]; simpl in *.
    rewrite Exists_app. intros [H|H]; [|auto].
    destruct (Hm H) as [e He]. discriminate.
  - intros _. exists e. reflexivity.
Qed.

Lemma fail_closed_lift {A} (r : Result A) w : fail_closed (lift r w).
Proof. destruct r; apply fail_closed_nil. Qed.

Lemma fail_closed_for_each (xs : list JSON) (body : JSON -> M unit) w :
  (forall x w1, fail_closed (body x w1)) -> fail_closed (for_each xs body w).
Proof.
  intros Hbody. revert w. induction xs as [|x xs IH]; intros w; simpl.
  - apply fail_closed_nil.
  - apply fail_closed_bind; auto.
Qed.

Lemma fail_closed_for_of (v : JSON) (body : JSON -> M unit) w :
  (forall x w1, fail_closed (body x w1)) -> fail_closed (for_of v body w).
Proof.
  intros Hbody. unfold for_of. apply fail_closed_bind.
  - apply fail_closed_lift.
  - intros xs w1. apply fail_closed_for_each, Hbody.
Qed.

(** What [handlers.map] leaves behind when no call threw: one promise per
    handler, and one recorded call per handler, in order, each with the same
    argument. *)
Lemma map_handlers_run eventType (handlers : list (@Handler World)) (value : JSON) :
  forall index w,
    match map_handlers eventType index handlers value w with
    | (Return promises, _, tr) =>
        tr = imap (fun k p => mkInvocation eventType (index + k) value (Returned p)) promises /\
        length promises = length handlers
    | (Throw _, _, tr) => True
    end.
Proof.
  induction handlers as [|h hs IH]; intros index w; simpl.
  - split; reflexivity.
  - unfold bind at 1. unfold invoke at 1.
    destruct (h value w) as [[p|e] w1]; [|exact I].
    unfold bind at 1. specialize (IH (S index) w1).
    destruct (map_handlers eventType (S index) hs value w1) as [[[ps|e] w2] t2];
      [|exact I].
    destruct IH as [-> Hlen]. simpl. split; [|congruence].
    rewrite Nat.add_0_r. f_equal. rewrite app_nil_r.
    apply imap_ext. intros k q _. simpl. f_equal. lia.
Qed.

Lemma await_all_run (promises : list Promise) w :
  (Forall (fun p => p = Fulfilled) promises /\
     await_all (World := World) promises w = (Return tt, w, [])) \/
  (Exists (fun p => p <> Fulfilled) promises /\
     exists e, await_all (World := World) promises w = (Throw e, w, [])).
Proof.
  induction promises as [|[|e] ps IH]; simpl.
  - left. split; [constructor | reflexivity].
  - destruct IH as [[H1 H2]|[H1 H2]]; [left | right]; split; auto.
  - right. split; [left; discriminate | exists e; reflexivity].
Qed.

Lemma fail_closed_dispatch eventHandlers eventType (value : JSON) w :
  fail_closed (dispatch eventHandlers eventType value w).
Proof.
  unfold dispatch, fail_closed, bind.
  pose proof (map_handlers_run eventType (default [] (eventHandlers !! eventType)) value 0 w) as H.
  destruct (map_handlers _ _ _ _ _) as [[[ps|e] w1] t1]; simpl.
  - destruct H as [-> _].
    destruct (await_all_run ps w1) as [[Hall ->]|[Hex [e ->]]]; simpl.
    + rewrite app_nil_r. intros Hfailed. exfalso.
      apply Exists_exists in Hfailed as (inv & Hin & Hf).
      apply elem_of_lookup_imap in Hin as (k & p & -> & Hk).
      apply Hf. simpl. f_equal.
      rewrite Forall_forall in Hall. apply Hall.
      apply list_elem_of_lookup. eauto.
    + intros _. exists e. reflexivity.
  - intros _. exists e. reflexivity.
Qed.

Lemma fail_closed_processMessages eventHandlers (value : JSON) w :
  fail_closed (processMessages eventHandlers value w).
Proof.
  unfold processMessages. apply fail_closed_bind; [apply fail_closed_lift|].
  intros [] w1; [apply fail_closed_nil | apply fail_closed_dispatch].
Qed.

Lemma fail_closed_processStatuses eventHandlers (value : JSON) w :
  fail_closed (processStatuses eventHandlers value w).
Proof.
  unfold processStatuses. apply fail_closed_bind; [apply fail_closed_lift|].
  intros [] w1; [apply fail_closed_nil | apply fail_closed_dispatch].
Qed.

Lemma fail_closed_process_change eventHandlers (change : JSON) w :
  fail_closed (process_change eventHandlers change w).
Proof.
  unfold process_change. destruct (negb _); [apply fail_closed_nil|].
  apply fail_closed_bind.
  - destruct (truthy_opt _);
      [apply fail_closed_processMessages | apply fail_closed_nil].
  - intros _ w1. destruct (truthy_opt _);
      [apply fail_closed_processStatuses | apply fail_closed_nil].
Qed.

Lemma fail_closed_process_entry eventHandlers (entry : JSON) w :
  fail_closed (process_entry eventHandlers entry w).
Proof.
  unfold process_entry. apply fail_closed_for_of.
  intros change w1. apply fail_closed_process_change.
Qed.

(** The dispatcher itself never throws. *)
Lemma processWebhookPayload_returns eventHandlers (payload : JSON) w :
  exists b, fst (fst (processWebhookPayload eventHandlers payload w)) = Return b.
Proof.
  unfold processWebhookPayload, try_catch.
  destruct (_ w) as [[[b|e] w1] t1]; simpl; eauto.
Qed.

(** C2: if any handler called during the dispatch of a payload throws, or
    returns a promise that rejects, [processWebhookPayload] returns [false];
    it does not throw, and the boolean is all it reports. *)
Theorem processWebhookPayload_false_on_failure eventHandlers (payload : JSON) w
    (r : Result bool) (w' : World) tr :
  processWebhookPayload eventHandlers payload w = (r, w', tr) ->
  Exists failed tr ->
  r = Return false.
Proof.
  unfold processWebhookPayload, try_catch. intros Hrun Hfailed.
  set (body := if negb _ then _ else _) in Hrun.
  assert (Hfc : fail_closed (body w)).
  { subst body. destruct (negb _); [apply fail_closed_nil|].
    apply fail_closed_bind.
    - apply fail_closed_for_of. intros entry w1. apply fail_closed_process_entry.
    - intros _ w1. apply fail_closed_nil. }
  unfold fail_closed in Hfc.
  destruct (body w) as [[[b|e] w1] t1]; simpl in *.
  - inversion Hrun; subst. destruct (Hfc Hfailed) as [e He]. discriminate.
  - inversion Hrun; subst. reflexivity.
Qed.

(** *** Payloads that are not for this integration *)

(** C7: a payload whose [object] is not ['whatsapp_business_account'] makes
    [processWebhookPayload] return [false]; nothing is thrown and no handler
    is called. *)
Theorem processWebhookPayload_rejects_other_objects eventHandlers (payload : JSON) w :
  prop payload "object" <> Some (JStr "whatsapp_business_account") ->
  processWebhookPayload eventHandlers payload w = (Return false, w, []).
Proof.
  intros H. unfold processWebhookPayload, try_catch.
  rewrite (strict_eq_str_false _ _ H). reflexivity.
Qed.

(** *** Where the recorded calls come from *)

Lemma trace_bind {A B} (m : M A) (k : A -> M B) w (i : Invocation) :
  i ∈ snd (bind m k w) ->
  i ∈ snd (m w) \/
  exists a w1, fst (fst (m w)) = Return a /\ i ∈ snd (k a w1).
Proof.
  unfold bind. destruct (m w) as [[[a|e] w1] t1]; simpl; [|auto].
  destruct (k a w1) as [[r w2] t2] eqn:E; simpl.
  rewrite elem_of_app. intros [H|H]; [auto|].
  right. exists a, w1. rewrite E. auto.
Qed.

Lemma lift_run {A} (r : Result A) w : lift r w = (r, w, []).
Proof. destruct r; reflexivity. Qed.

Lemma trace_for_each (xs : list JSON) (body : JSON -> M unit) w (i : Invocation) :
  i ∈ snd (for_each xs body w) ->
  exists x w1, x ∈ xs /\ i ∈ snd (body x w1).
Proof.
  revert w. induction xs as [|x xs IH]; intros w; simpl.
  - intros H. inversion H.
  - intros H. apply trace_bind in H as [H|(_ & w1 & _ & H)].
    + exists x, w. split; [left | exact H].
    + destruct (IH _ H) as (y & w2 & Hy & Hi). exists y, w2. split; [right|]; auto.
Qed.

Lemma trace_for_of (v : JSON) (body : JSON -> M unit) w (i : Invocation) :
  i ∈ snd (for_of v body w) ->
  exists xs x w1, iterate v = Return xs /\ x ∈ xs /\ i ∈ snd (body x w1).
Proof.
  unfold for_of. intros H. apply trace_bind in H as [H|(xs & w1 & Hxs & H)].
  - rewrite lift_run in H. inversion H.
  - rewrite lift_run in Hxs. simpl in Hxs.
    apply trace_for_each in H as (x & w2 & Hx & Hi).
    exists xs, x, w2. auto.
Qed.

Lemma trace_map_handlers eventType (handlers : list (@Handler World)) (value : JSON)
    index w (i : Invocation) :
  i ∈ snd (map_handlers eventType index handlers value w) ->
  inv_event i = eventType /\ inv_data i = value.
Proof.
  revert index w. induction handlers as [|h hs IH]; intros index w; simpl.
  - intros H. inversion H.
  - intros H. apply trace_bind in H as [H|(p & w1 & _ & H)].
    + unfold invoke in H. destruct (h value w) as [o w1]. simpl in H.
      apply list_elem_of_singleton in H. subst i. split; reflexivity.
    + apply trace_bind in H as [H|(ps & w2 & _ & H)]; [eauto|].
      inversion H.
Qed.

Lemma trace_await_all (promises : list Promise) w :
  snd (await_all (World := World) promises w) = [].
Proof.
  destruct (await_all_run promises w) as [[_ ->]|[_ [e ->]]]; reflexivity.
Qed.

Lemma trace_dispatch eventHandlers eventType (value : JSON) w (i : Invocation) :
  i ∈ snd (dispatch eventHandlers eventType value w) ->
  inv_event i = eventType /\ inv_data i = value.
Proof.
  unfold dispatch. intros H. apply trace_bind in H as [H|(ps & w1 & _ & H)].
  - eapply trace_map_handlers, H.
  - rewrite trace_await_all in H. inversion H.
Qed.

Lemma trace_processMessages eventHandlers (value : JSON) w (i : Invocation) :
  i ∈ snd (processMessages eventHandlers value w) ->
  inv_event i = message /\ inv_data i = value.
Proof.
  unfold processMessages. intros H. apply trace_bind in H as [H|(b & w1 & _ & H)].
  - rewrite lift_run in H. inversion H.
  - destruct b; [inversion H | eapply trace_dispatch, H].
Qed.

Lemma trace_processStatuses eventHandlers (value : JSON) w (i : Invocation) :
  i ∈ snd (processStatuses eventHandlers value w) ->
  inv_event i = status /\ inv_data i = value.
Proof.
  unfold processStatuses. intros H. apply trace_bind in H as [H|(b & w1 & _ & H)].
  - rewrite lift_run in H. inversion H.
  - destruct b; [inversion H | eapply trace_dispatch, H].
Qed.

Lemma process_change_other_field eventHandlers (change : JSON) w :
  prop change "field" <> Some (JStr "messages") ->
  process_change eventHandlers change w = (Return tt, w, []).
Proof.
  intros H. unfold process_change. rewrite (strict_eq_str_false _ _ H). reflexivity.
Qed.

Lemma trace_process_change eventHandlers (change : JSON) w (i : Invocation) :
  i ∈ snd (process_change eventHandlers change w) ->
  prop change "field" = Some (JStr "messages") /\
  inv_data i = or_default (prop change "value") (JObj ∅) /\
  (inv_event i = message \/ inv_event i = status).
Proof.
  unfold process_change.
  destruct (strict_eq_str (prop change "field") "messages") eqn:E; simpl.
  - apply strict_eq_str_spec in E. intros H. split; [exact E|].
    apply trace_bind in H as [H|(_ & w1 & _ & H)].
    + destruct (truthy_opt _); [|inversion H].
      apply trace_processMessages in H as [H1 H2]. auto.
    + destruct (truthy_opt _); [|inversion H].
      apply trace_processStatuses in H as [H1 H2]. auto.
  - intros H. inversion H.
Qed.

(** C6: every handler call [processWebhookPayload] makes is made for a
    change whose [field] is ['messages'], with that change's value, for the
    ['message'] or the ['status'] event type; a change with any other [field]
    calls no handler at all. *)
Theorem handlers_only_for_messages_changes eventHandlers (payload : JSON) w :
  (forall i, i ∈ snd (processWebhookPayload eventHandlers payload w) ->
     for_messages_change payload i) /\
  (forall change w1,
     prop change "field" <> Some (JStr "messages") ->
     process_change eventHandlers change w1 = (Return tt, w1, [])).
Proof.
  split; [|intros change w1; apply process_change_other_field].
  intros i. unfold processWebhookPayload, try_catch.
  set (body := if negb _ then _ else _).
  assert (Hbody : i ∈ snd (body w) -> for_messages_change payload i).
  { subst body. destruct (negb _); [intros H; inversion H|].
    intros H. apply trace_bind in H as [H|(_ & w1 & _ & H)]; [|inversion H].
    apply trace_for_of in H as (entries & entry & w1 & Hentries & Hentry & H).
    unfold process_entry in H.
    apply trace_for_of in H as (changes & change & w2 & Hchanges & Hchange & H).
    apply trace_process_change in H as (Hfield & Hdata & Hevent).
    exists entries, entry, changes, change. auto 10. }
  destruct (body w) as [[[b|e] w1] t1]; simpl in *; [exact Hbody|].
  rewrite app_nil_r. exact Hbody.
Qed.

(** *** Payloads with nothing to dispatch *)

Lemma or_default_array (o : option JSON) (items : list JSON) :
  absent_or_array o items -> or_default o (JArr []) = JArr items.
Proof.
  unfold absent_or_array, or_default. intros [[H ->]| ->]; [|reflexivity].
  destruct o as [v|]; [|reflexivity]. simpl in H. rewrite H. reflexivity.
Qed.

Lemma for_each_silent (xs : list JSON) (body : JSON -> M unit) w :
  (forall x, x ∈ xs -> body x w = (Return tt, w, [])) ->
  for_each xs body w = (Return tt, w, []).
Proof.
  induction xs as [|x xs IH]; intros H; simpl; [reflexivity|].
  unfold bind. rewrite (H x) by left.
  rewrite IH; [reflexivity|]. intros y Hy. apply H. right. exact Hy.
Qed.

Lemma processMessages_nothing eventHandlers (value : JSON) w :
  absent_or_array (prop value "messages") [] ->
  (if truthy_opt (prop value "messages")
   then processMessages eventHandlers value else ret tt) w = (Return tt, w, []).
Proof.
  intros H. destruct (truthy_opt _); [|reflexivity].
  unfold processMessages. rewrite (or_default_array _ _ H). reflexivity.
Qed.

Lemma processStatuses_nothing eventHandlers (value : JSON) w :
  absent_or_array (prop value "statuses") [] ->
  (if truthy_opt (prop value "statuses")
   then processStatuses eventHandlers value else ret tt) w = (Return tt, w, []).
Proof.
  intros H. destruct (truthy_opt _); [|reflexivity].
  unfold processStatuses. rewrite (or_default_array _ _ H). reflexivity.
Qed.

Lemma process_change_silent eventHandlers (change : JSON) w :
  silent_change change ->
  process_change eventHandlers change w = (Return tt, w, []).
Proof.
  intros H. unfold process_change.
  destruct (strict_eq_str (prop change "field") "messages") eqn:E; [|reflexivity].
  apply strict_eq_str_spec in E. destruct (H E) as [Hm Hs]. simpl.
  unfold bind. rewrite (processMessages_nothing _ _ _ Hm).
  rewrite (processStatuses_nothing _ _ _ Hs). reflexivity.
Qed.

Lemma process_entry_silent eventHandlers (entry : JSON) w :
  silent_entry entry ->
  process_entry eventHandlers entry w = (Return tt, w, []).
Proof.
  intros (changes & Harr & Hall). unfold process_entry, for_of.
  rewrite (or_default_array _ _ Harr). simpl. unfold bind, ret.
  rewrite for_each_silent; [reflexivity|].
  intros change Hin. apply process_change_silent.
  rewrite Forall_forall in Hall. auto.
Qed.

(** C10, as amended: a payload for this integration whose [entry] and
    [changes] are arrays when present, and whose changes for ['messages'] all
    have [messages] and [statuses] absent or empty, makes
    [processWebhookPayload] return [true] without calling any handler. *)
Theorem processWebhookPayload_nothing_to_dispatch eventHandlers (payload : JSON) w :
  silent_payload payload ->
  processWebhookPayload eventHandlers payload w = (Return true, w, []).
Proof.
  intros (Hobject & entries & Harr & Hall).
  unfold processWebhookPayload, try_catch, for_of.
  apply strict_eq_str_spec in Hobject. rewrite Hobject. simpl.
  rewrite (or_default_array _ _ Harr). simpl. unfold bind, ret.
  rewrite for_each_silent; [reflexivity|].
  intros entry Hin. apply process_entry_silent.
  rewrite Forall_forall in Hall. auto.
Qed.

(** *** Calls made for one change *)





Lemma bind_ret_l {A B} (a : A) (k : A -> M B) w : bind (ret a) k w = k a w.
Proof. unfold bind, ret. destruct (k a w) as [[r w1] t1]. reflexivity. Qed.






End DispatchFacts.
(** *** The tests of the dispatcher, and variations *)

Example processWebhookPayload_tests :
  processWebhookPayload (registerEventHandler message Fixtures.mock_resolved ∅)
    Fixtures.payload_with_messages 0
    = (Return true, 1,
       [mkInvocation message 0 Fixtures.value_with_messages (Returned Fulfilled)]) /\
  processWebhookPayload (registerEventHandler status Fixtures.mock_resolved ∅)
    Fixtures.payload_with_statuses 0
    = (Return true, 1,
       [mkInvocation status 0 Fixtures.value_with_statuses (Returned Fulfilled)]).
Proof. split; vm_compute; reflexivity. Qed.

Lemma processWebhookPayload_false_on_failure_witness :
  fst (fst (processWebhookPayload Fixtures.one_rejecting_handler
              Fixtures.payload_with_messages 0)) = Return false.
Proof.
  apply (processWebhookPayload_false_on_failure Fixtures.one_rejecting_handler
           Fixtures.payload_with_messages 0 _ 1
           [mkInvocation message 0 Fixtures.value_with_messages
              (Returned (Rejected (Error "Handler error")))]).
  - vm_compute. reflexivity.
  - left. unfold failed. simpl. discriminate.
Defined.

Lemma processWebhookPayload_rejects_other_objects_witness :
  processWebhookPayload Fixtures.two_resolving_handlers Fixtures.payload_invalid_object 0
    = (Return false, 0, []).
Proof.
  apply (processWebhookPayload_rejects_other_objects Fixtures.two_resolving_handlers
           Fixtures.payload_invalid_object 0).
  vm_compute. discriminate.
Defined.

Lemma processWebhookPayload_nothing_to_dispatch_witness :
  processWebhookPayload Fixtures.two_resolving_handlers Fixtures.payload_nothing 0
    = (Return true, 0, []).
Proof.
  apply (processWebhookPayload_nothing_to_dispatch Fixtures.two_resolving_handlers
           Fixtures.payload_nothing 0).
  split; [reflexivity|]. eexists. split; [right; reflexivity|].
  constructor; [|constructor; [|constructor]].
  - exists []. split; [left; split; reflexivity | constructor].
  - eexists. split; [right; reflexivity|].
    constructor; [|constructor; [|constructor]].
    + intros _. split; [right; reflexivity | left; split; reflexivity].
    + intros H. vm_compute in H. discriminate H.
Defined.

(** C10, as stated, fails: a payload for this integration whose [entry] is a
    number contains no change at all, and [processWebhookPayload] returns
    [false] for it: the loop over [entry] throws. *)
Lemma processWebhookPayload_false_on_malformed_entry :
  prop Fixtures.payload_entry_number "object" = Some (JStr "whatsapp_business_account") /\
  prop Fixtures.payload_entry_number "entry" = Some (JNum 5) /\
  processWebhookPayload Fixtures.two_resolving_handlers Fixtures.payload_entry_number 0
    = (Return false, 0, []).
Proof. repeat split. Qed.



End WhatsAppWebhookRepositoryFacts.

(** * Further properties

    What the rest of the code shows: the configuration, the other requests of
    the client and the repository, the messages the use case builds, and the
    order in which the dispatcher calls its handlers. *)

(** ** Configuration *)

Module WhatsAppConfigInvariants.
Import WhatsAppConfigFacts.

Lemma filter_nil_false {A} (f : A -> bool) (l : list A) :
  List.filter f l = [] -> forall x, In x l -> f x = false.
Proof.
  induction l as [|a l IH]; simpl; intros H x Hx; [contradiction|].
  destruct (f a) eqn:E; [discriminate|].
  destruct Hx as [<-|Hx]; auto.
Qed.

Lemma filter_sublist {A} (f : A -> bool) (l : list A) : List.filter f l `sublist_of` l.
Proof.
  induction l as [|a l IH]; simpl; [constructor|].
  destruct (f a); [apply sublist_skip | apply sublist_cons]; exact IH.
Qed.

Lemma env_or_nonempty (env : Env) (v fallback : string) :
  fallback <> "" -> env_or env v fallback <> "".
Proof.
  intros H. unfold env_or. destruct (env !! v) as [s|]; [|exact H].
  destruct (String.eqb_spec s ""); assumption.
Qed.

Lemma missing_false_get (env : Env) (v : string) :
  missing env v = false -> env_get env v <> "".
Proof.
  intros H. apply (present_get env v). intros Hm.
  apply missing_spec in Hm. congruence.
Qed.

(** X1: [fromEnv] reads the five required variables and the two optional ones,
    and nothing else of the environment. *)
Theorem fromEnv_depends_on_seven_variables (env1 env2 : Env) :
  (forall x, x ∈ (requiredVars ++ ["WHATSAPP_API_BASE_URL"; "WHATSAPP_DEFAULT_LANGUAGE_CODE"])%list ->
             env1 !! x = env2 !! x) ->
  fromEnv env1 = fromEnv env2.
Proof.
  intros H.
  assert (Hin : forall x, In x (requiredVars ++ ["WHATSAPP_API_BASE_URL"; "WHATSAPP_DEFAULT_LANGUAGE_CODE"])%list ->
                          env1 !! x = env2 !! x).
  { intros x Hx. apply H, list_elem_of_In, Hx. }
  simpl in Hin.
  assert (Hmissing : missingVars env1 = missingVars env2).
  { unfold missingVars. apply filter_ext_in. intros x Hx. unfold missing.
    rewrite Hin; [reflexivity|]. simpl in Hx. tauto. }
  unfold fromEnv, env_get, env_or. rewrite Hmissing.
  rewrite !Hin by tauto. reflexivity.
Qed.

Lemma fromEnv_depends_on_seven_variables_witness :
  fromEnv (delete "NODE_ENV" Fixtures.test_env) = fromEnv Fixtures.test_env.
Proof.
  apply (fromEnv_depends_on_seven_variables (delete "NODE_ENV" Fixtures.test_env)
           Fixtures.test_env).
  intros x Hx. apply lookup_delete_ne. intros <-.
  apply list_elem_of_In in Hx. simpl in Hx.
  repeat (destruct Hx as [Hx|Hx]; [discriminate Hx|]). exact Hx.
Defined.

(** X2: The error of [fromEnv] names exactly the required variables that are
    unset or empty, in the order of [requiredVars], each once. *)
Theorem fromEnv_error_lists_in_order (env : Env) (e : Exn) :
  fromEnv env = Throw e ->
  exists names,
    e = Error ("Missing required environment variables: " ++ String.concat ", " names) /\
    (forall v, v ∈ names <-> v ∈ requiredVars /\ unset_or_empty env v) /\
    names `sublist_of` requiredVars /\
    NoDup names /\
    names <> [].
Proof.
  unfold fromEnv. intros H. exists (missingVars env).
  assert (Hsub : missingVars env `sublist_of` requiredVars) by apply filter_sublist.
  assert (Hmem : forall v, v ∈ missingVars env <-> v ∈ requiredVars /\ unset_or_empty env v)
    by apply missingVars_spec.
  destruct (missingVars env) as [|v l] eqn:E; [discriminate|].
  injection H as <-. split; [reflexivity|]. split; [exact Hmem|].
  split; [exact Hsub|]. split; [|discriminate].
  eapply sublist_NoDup; [|exact Hsub].
  unfold requiredVars. repeat constructor; rewrite ?list_elem_of_In; simpl;
    intros Hx; repeat (destruct Hx as [Hx|Hx]; [discriminate Hx|]); exact Hx.
Qed.

Lemma fromEnv_error_lists_in_order_witness :
  exists names,
    Error "Missing required environment variables: WHATSAPP_ACCESS_TOKEN"
      = Error ("Missing required environment variables: " ++ String.concat ", " names) /\
    (forall v, v ∈ names <->
               v ∈ requiredVars /\ unset_or_empty Fixtures.env_without_token v) /\
    names `sublist_of` requiredVars /\ NoDup names /\ names <> [].
Proof.
  apply (fromEnv_error_lists_in_order Fixtures.env_without_token).
  vm_compute. reflexivity.
Defined.

(** X3: A configuration that [fromEnv] returns has no empty field. *)
Theorem fromEnv_fields_not_empty (env : Env) (config : IWhatsAppConfig) :
  fromEnv env = Return config ->
  businessAccountId config <> "" /\
  phoneNumberId config <> "" /\
  apiVersion config <> "" /\
  accessToken config <> "" /\
  webhookVerificationToken config <> "" /\
  apiBaseUrl config <> "" /\
  defaultLanguageCode config <> "".
Proof.
  unfold fromEnv. destruct (missingVars env) as [|v l] eqn:E; [|discriminate].
  intros H. inversion H; subst; clear H. simpl.
  pose proof (filter_nil_false _ _ E) as Hreq. simpl in Hreq.
  repeat split; try (apply missing_false_get, Hreq; tauto);
    apply env_or_nonempty; discriminate.
Qed.

Lemma fromEnv_fields_not_empty_witness :
  businessAccountId Fixtures.mockConfig <> "" /\
  phoneNumberId Fixtures.mockConfig <> "" /\
  apiVersion Fixtures.mockConfig <> "" /\
  accessToken Fixtures.mockConfig <> "" /\
  webhookVerificationToken Fixtures.mockConfig <> "" /\
  apiBaseUrl Fixtures.mockConfig <> "" /\
  defaultLanguageCode Fixtures.mockConfig <> "".
Proof.
  apply (fromEnv_fields_not_empty Fixtures.test_env Fixtures.mockConfig).
  vm_compute. reflexivity.
Defined.

End WhatsAppConfigInvariants.

(** ** Requests *)

Module OutboundRequests.
Import WhatsAppHttpClient WhatsAppMessageRepository.

Lemma prefix_cons (a b : Ascii.ascii) (s t : string) :
  String.prefix (String a s) (String b t)
    = if Ascii.ascii_dec a b then String.prefix s t else false.
Proof. reflexivity. Qed.

Lemma prefix_nil_l (s : string) : String.prefix "" s = true.
Proof. destruct s; reflexivity. Qed.

Lemma prefix_http_messages (p : string) :
  String.prefix "http" (p ++ "/messages") = String.prefix "http" p.
Proof.
  destruct p as [|a [|b [|c [|d p]]]]; rewrite ?append_cons;
    try change ("" ++ "/messages") with "/messages";
    rewrite ?prefix_cons, ?prefix_nil_l;
    repeat match goal with
           | |- context [Ascii.ascii_dec ?x ?y] => destruct (Ascii.ascii_dec x y)
           end; try reflexivity; try discriminate.
Qed.

Section Facts.
Variable JSON_stringify : JSON -> string.
Variable fetch : Request -> Result Response.

(** X4: [post] hands exactly one request to [fetch], whatever comes of it: a
    failure of [fetch] itself is passed on as it is, and for an ok response
    the result is what [response.json()] settles with. *)
Theorem post_single_attempt (config : IWhatsAppConfig) (endpoint : string)
    (body : gmap string JSON) :
  snd (post JSON_stringify fetch config endpoint body)
    = [Fetch (post_request JSON_stringify config endpoint body)] /\
  (forall e, fetch (post_request JSON_stringify config endpoint body) = Throw e ->
     fst (post JSON_stringify fetch config endpoint body) = Throw e) /\
  (forall response,
     fetch (post_request JSON_stringify config endpoint body) = Return response ->
     ok response = true ->
     fst (post JSON_stringify fetch config endpoint body) = json response).
Proof.
  unfold post. repeat split.
  - destruct (fetch _) as [response|e]; [|reflexivity].
    destruct (negb (ok response)); reflexivity.
  - intros e ->. reflexivity.
  - intros response -> ->. reflexivity.
Qed.

(** X5: [sendMessage] posts to the address [getMessagesEndpoint] gives, unless
    the phone number id itself starts with ['http']: then the id, followed by
    ['/messages'], is taken for the whole address. *)
Theorem sendMessage_url (config : IWhatsAppConfig) (message : WhatsAppMessage) :
  exists request,
    snd (sendMessage JSON_stringify fetch config message) = [Fetch request] /\
    url request = if String.prefix "http" (phoneNumberId config)
                  then phoneNumberId config ++ "/messages"
                  else getMessagesEndpoint config.
Proof.
  eexists. split.
  - unfold sendMessage. apply WhatsAppHttpClientFacts.post_issues_one_request.
  - simpl. unfold request_url, getMessagesEndpoint.
    rewrite prefix_http_messages. reflexivity.
Qed.

(** X6: [markMessageAsRead] never throws. It answers [true] exactly when [fetch]
    delivered an ok response whose body parsed as JSON, and [false] in every
    other case; either way it has sent one request, a read receipt for the
    given message id. *)
Theorem markMessageAsRead_spec (config : IWhatsAppConfig) (messageId : string) :
  let request := post_request JSON_stringify config
                   (phoneNumberId config ++ "/messages") (read_receipt messageId) in
  exists b,
    markMessageAsRead JSON_stringify fetch config messageId = (Return b, [Fetch request]) /\
    (b = true <->
       exists response data,
         fetch request = Return response /\ ok response = true /\
         json response = Return data) /\
    read_receipt messageId !! "messaging_product" = Some (JStr "whatsapp") /\
    read_receipt messageId !! "status" = Some (JStr "read") /\
    read_receipt messageId !! "message_id" = Some (JStr messageId).
Proof.
  intros request. unfold markMessageAsRead, post. fold request.
  assert (Hbody : read_receipt messageId !! "messaging_product" = Some (JStr "whatsapp") /\
                  read_receipt messageId !! "status" = Some (JStr "read") /\
                  read_receipt messageId !! "message_id" = Some (JStr messageId)).
  { unfold read_receipt. split; [|split].
    - rewrite !lookup_insert_ne by discriminate. apply lookup_insert_eq.
    - rewrite lookup_insert_ne by discriminate. apply lookup_insert_eq.
    - apply lookup_insert_eq. }
  destruct (fetch request) as [response|e] eqn:Hfetch.
  - destruct (ok response) eqn:Hok; simpl.
    + destruct (json response) as [data|e] eqn:Hjson.
      * exists true. repeat split; try apply Hbody. eauto.
      * exists false. repeat split; try apply Hbody; try discriminate.
        intros (r & d & Hr & _ & Hd). congruence.
    + exists false. repeat split; try apply Hbody; try discriminate.
      intros (r & d & Hr & Hk & _). congruence.
  - exists false. repeat split; try apply Hbody; try discriminate.
    intros (r & d & Hr & _). congruence.
Qed.

(** X7: Forcing the discriminator is idempotent, and it changes nothing exactly
    on the messages that already carry it. *)
Theorem messageToSend_idempotent (message : WhatsAppMessage) :
  messageToSend (messageToSend message) = messageToSend message /\
  (messageToSend message = message <->
     message !! "messaging_product" = Some (JStr "whatsapp")).
Proof.
  unfold messageToSend. split.
  - apply insert_insert_eq.
  - split.
    + intros H. rewrite <- H. apply lookup_insert_eq.
    + apply insert_id.
Qed.

Variable URL_with_params : string -> list (string * string) -> Result string.

(** X8: [get] sends at most one request, and none when the address is not a
    valid URL; a response that is not ok is reported with the message [post]
    uses. *)
Theorem get_spec (config : IWhatsAppConfig) (endpoint : string)
    (queryParams : list (string * string)) :
  (forall e,
     URL_with_params (request_url config endpoint) queryParams = Throw e ->
     get JSON_stringify fetch URL_with_params config endpoint queryParams = (Throw e, [])) /\
  (forall target,
     URL_with_params (request_url config endpoint) queryParams = Return target ->
     snd (get JSON_stringify fetch URL_with_params config endpoint queryParams)
       = [Fetch (mkRequest target "GET"
                   [("Authorization", "Bearer " ++ accessToken config)] None)] /\
     forall response,
       fetch (get_request config target) = Return response ->
       ok response = false ->
       fst (get JSON_stringify fetch URL_with_params config endpoint queryParams)
         = Throw (Error ("WhatsApp API error: " ++ pretty (status response) ++ " "
                           ++ statusText response ++ " - "
                           ++ JSON_stringify (match json response with
                                              | Return parsed => parsed
                                              | Throw _ => JObj ∅
                                              end)))).
Proof.
  unfold get. split.
  - intros e ->. reflexivity.
  - intros target ->. split.
    + destruct (fetch _) as [response|e]; [|reflexivity].
      destruct (negb (ok response)); reflexivity.
    + intros response -> ->. reflexivity.
Qed.

End Facts.
(** The client and repository tests, and an address without a scheme. *)
Example markMessageAsRead_tests :
  fst (markMessageAsRead Fixtures.sample_stringify (fun _ => Return Fixtures.ok_response)
         Fixtures.mockConfig "wamid.test123") = Return true /\
  fst (markMessageAsRead Fixtures.sample_stringify (fun _ => Throw (Error "API error"))
         Fixtures.mockConfig "wamid.test123") = Return false.
Proof. split; vm_compute; reflexivity. Qed.

Example get_without_scheme :
  get Fixtures.sample_stringify (fun _ => Return Fixtures.ok_response)
    Fixtures.sample_URL_with_params Fixtures.config_without_scheme
    "test-phone-id/messages" [("limit", "10")]
    = (Throw (TypeError "Invalid URL"), []).
Proof. vm_compute. reflexivity. Qed.

End OutboundRequests.

(** ** Messages built by the use case *)

Module SendMessageUseCaseMessages.
Import SendMessageUseCase.

Lemma envelope_lookup (to type : string) :
  envelope to type !! "messaging_product" = Some (JStr "whatsapp") /\
  envelope to type !! "recipient_type" = Some (JStr "individual") /\
  envelope to type !! "to" = Some (JStr to) /\
  envelope to type !! "type" = Some (JStr type) /\
  forall k, k <> "messaging_product" -> k <> "recipient_type" -> k <> "to" ->
            k <> "type" -> envelope to type !! k = None.
Proof.
  unfold envelope. split_and!.
  - rewrite !lookup_insert_ne by discriminate. apply lookup_insert_eq.
  - rewrite !lookup_insert_ne by discriminate. apply lookup_insert_eq.
  - rewrite lookup_insert_ne by discriminate. apply lookup_insert_eq.
  - apply lookup_insert_eq.
  - intros k H1 H2 H3 H4. rewrite !lookup_insert_ne by congruence. apply lookup_empty.
Qed.

Lemma with_context_lookup (replyToMessageId : option string) (message : WhatsAppMessage) :
  with_context replyToMessageId message !! "context"
    = match replyToMessageId with
      | Some id => if decide (id = "") then message !! "context"
                   else Some (JObj (<["message_id" := JStr id]> ∅))
      | None => message !! "context"
      end /\
  forall k, k <> "context" -> with_context replyToMessageId message !! k = message !! k.
Proof.
  unfold with_context, truthy_str. destruct replyToMessageId as [id|]; [|auto].
  destruct (String.eqb_spec id ""), (decide (id = "")); try congruence; simpl.
  - auto.
  - split; [apply lookup_insert_eq|]. intros k Hk. apply lookup_insert_ne. congruence.
Qed.

Lemma call_sendMessage_run {repository : IWhatsAppMessageRepository}
    (message : WhatsAppMessage) :
  call_sendMessage message
    = (fst (repository_sendMessage message),
       RepositorySendMessage message :: snd (repository_sendMessage message)).
Proof.
  unfold call_sendMessage. destruct (repository_sendMessage message). reflexivity.
Qed.

Section Facts.
Context {repository : IWhatsAppMessageRepository}.

(** X9: [sendMediaMessage] refuses a request exactly when [mediaId] and
    [mediaUrl] are both absent or empty; in every other case it calls the
    repository once, with a message of the media type that carries the media
    object, and returns what the repository returns. *)
Theorem sendMediaMessage_validation (params : SendMediaMessageParams) :
  (truthy_str (mediaId params) = false /\ truthy_str (mediaUrl params) = false ->
     sendMediaMessage params
       = (Throw (Error "Either mediaId or mediaUrl must be provided"), [])) /\
  (truthy_str (mediaId params) = true \/ truthy_str (mediaUrl params) = true ->
     exists message,
       sendMediaMessage params
         = (fst (repository_sendMessage message),
            RepositorySendMessage message :: snd (repository_sendMessage message)) /\
       message !! "messaging_product" = Some (JStr "whatsapp") /\
       message !! "recipient_type" = Some (JStr "individual") /\
       message !! "to" = Some (JStr (to params)) /\
       message !! "type" = Some (JStr (mediaType_name (mediaType params))) /\
       message !! mediaType_name (mediaType params) = Some (JObj (mediaContent params))).
Proof.
  unfold sendMediaMessage. split.
  - intros [-> ->]. reflexivity.
  - intros H.
    assert (Hgo : negb (truthy_str (mediaId params)) && negb (truthy_str (mediaUrl params))
                  = false).
    { destruct H as [-> | ->]; simpl; [reflexivity | apply andb_false_r]. }
    rewrite Hgo.
    assert (Hname : forall k, k = "messaging_product" \/ k = "recipient_type" \/
                              k = "to" \/ k = "type" \/ k = "context" ->
                              mediaType_name (mediaType params) <> k).
    { intros k Hk. destruct (mediaType params);
        repeat (destruct Hk as [-> | Hk]; [discriminate|]); subst; discriminate. }
    set (name := mediaType_name (mediaType params)) in *.
    refine (ex_intro _ (with_context (replyToMessageId params)
              (<[name := JObj (mediaContent params)]> (envelope (to params) name))) _).
    split; [exact (call_sendMessage_run _)|].
    destruct (with_context_lookup (replyToMessageId params)
                (<[name := JObj (mediaContent params)]> (envelope (to params) name)))
      as [_ Hframe].
    destruct (envelope_lookup (to params) name) as (E1 & E2 & E3 & E4 & _).
    split_and!.
    + rewrite Hframe, lookup_insert_ne by first [discriminate | apply Hname; tauto].
      exact E1.
    + rewrite Hframe, lookup_insert_ne by first [discriminate | apply Hname; tauto].
      exact E2.
    + rewrite Hframe, lookup_insert_ne by first [discriminate | apply Hname; tauto].
      exact E3.
    + rewrite Hframe, lookup_insert_ne by first [discriminate | apply Hname; tauto].
      exact E4.
    + rewrite Hframe by (apply Hname; tauto). apply lookup_insert_eq.
Qed.

(** X10: The media object carries [id], [link], [caption] and [filename], each
    exactly when the corresponding parameter is present and not empty, and
    nothing else; [id] and [link] may both be there. *)
Theorem mediaContent_fields (params : SendMediaMessageParams) :
  let field (o : option string) :=
    match o with
    | Some s => if decide (s = "") then None else Some (JStr s)
    | None => None
    end in
  mediaContent params !! "id" = field (mediaId params) /\
  mediaContent params !! "link" = field (mediaUrl params) /\
  mediaContent params !! "caption" = field (caption params) /\
  mediaContent params !! "filename" = field (filename params) /\
  forall k, k <> "id" -> k <> "link" -> k <> "caption" -> k <> "filename" ->
            mediaContent params !! k = None.
Proof.
  assert (Hspread : forall key x (o : gmap string JSON) k,
            spread_if key x o !! k
              = if decide (k = key)
                then match x with
                     | Some s => if decide (s = "") then o !! k else Some (JStr s)
                     | None => o !! k
                     end
                else o !! k).
  { intros key x o k. unfold spread_if, truthy_str. destruct x as [s|].
    - destruct (String.eqb_spec s ""), (decide (s = "")); try congruence; simpl.
      + destruct (decide (k = key)); reflexivity.
      + destruct (decide (k = key)) as [->|];
          [apply lookup_insert_eq | apply lookup_insert_ne; congruence].
    - destruct (decide (k = key)); reflexivity. }
  intros field. subst field. unfold mediaContent. split_and!.
  - rewrite !Hspread. simpl. rewrite lookup_empty.
    destruct (mediaId params) as [s|]; [destruct (decide (s = ""))|]; reflexivity.
  - rewrite !Hspread. simpl. rewrite lookup_empty.
    destruct (mediaUrl params) as [s|]; [destruct (decide (s = ""))|]; reflexivity.
  - rewrite !Hspread. simpl. rewrite lookup_empty.
    destruct (caption params) as [s|]; [destruct (decide (s = ""))|]; reflexivity.
  - rewrite !Hspread. simpl. rewrite lookup_empty.
    destruct (filename params) as [s|]; [destruct (decide (s = ""))|]; reflexivity.
  - intros k H1 H2 H3 H4. rewrite !Hspread.
    repeat (destruct (decide _); [congruence|]). apply lookup_empty.
Qed.

(** X11: [sendTextMessage] never refuses: it calls the repository once and returns
    its answer. The message is addressed to [to], has type ['text'], a text
    object with the body (and the preview flag when one is given), and a
    reply context exactly when [replyToMessageId] is present and not empty. *)
Theorem sendTextMessage_message (params : Text.SendTextMessageParams) :
  exists message text,
    sendTextMessage params
      = (fst (repository_sendMessage message),
         RepositorySendMessage message :: snd (repository_sendMessage message)) /\
    message !! "messaging_product" = Some (JStr "whatsapp") /\
    message !! "recipient_type" = Some (JStr "individual") /\
    message !! "to" = Some (JStr (Text.to params)) /\
    message !! "type" = Some (JStr "text") /\
    message !! "text" = Some (JObj text) /\
    text !! "body" = Some (JStr (Text.text params)) /\
    text !! "preview_url" = JBool <$> Text.previewUrl params /\
    message !! "context"
      = match Text.replyToMessageId params with
        | Some id => if decide (id = "") then None
                     else Some (JObj (<["message_id" := JStr id]> ∅))
        | None => None
        end.
Proof.
  unfold sendTextMessage. eexists. eexists.
  split; [exact (call_sendMessage_run _)|].
  set (text := set_if_defined "preview_url" _ _).
  destruct (with_context_lookup (Text.replyToMessageId params)
              (<["text" := JObj text]> (envelope (Text.to params) "text")))
    as [Hcontext Hframe].
  destruct (envelope_lookup (Text.to params) "text") as (E1 & E2 & E3 & E4 & E5).
  split_and!.
  - rewrite Hframe, lookup_insert_ne by discriminate. exact E1.
  - rewrite Hframe, lookup_insert_ne by discriminate. exact E2.
  - rewrite Hframe, lookup_insert_ne by discriminate. exact E3.
  - rewrite Hframe, lookup_insert_ne by discriminate. exact E4.
  - rewrite Hframe by discriminate. apply lookup_insert_eq.
  - subst text. unfold set_if_defined.
    destruct (Text.previewUrl params); simpl;
      rewrite ?lookup_insert_ne by discriminate; apply lookup_insert_eq.
  - subst text. unfold set_if_defined.
    destruct (Text.previewUrl params); simpl; [apply lookup_insert_eq|].
    rewrite lookup_insert_ne by discriminate. apply lookup_empty.
  - rewrite Hcontext, lookup_insert_ne, E5 by discriminate.
    destruct (Text.replyToMessageId params) as [id|]; [|reflexivity].
    destruct (decide (id = "")); reflexivity.
Qed.

(** X12: [sendInteractiveMessage] never refuses either. The interactive object
    has the type, the body text and an action; the action holds the reply
    buttons (in the order given) for type ['button'] with buttons, the
    sections under a fixed button label for type ['list'] with sections, and
    is empty in every other case, in which the message is sent all the same.
    Header and footer are there exactly when their text is present and not
    empty. *)
Theorem sendInteractiveMessage_message (params : Interactive.SendInteractiveMessageParams) :
  exists message content,
    sendInteractiveMessage params
      = (fst (repository_sendMessage message),
         RepositorySendMessage message :: snd (repository_sendMessage message)) /\
    message !! "messaging_product" = Some (JStr "whatsapp") /\
    message !! "to" = Some (JStr (Interactive.to params)) /\
    message !! "type" = Some (JStr "interactive") /\
    message !! "interactive" = Some (JObj content) /\
    content !! "type"
      = Some (JStr (Interactive.name (Interactive.interactiveType params))) /\
    content !! "body"
      = Some (JObj (<["text" := JStr (Interactive.bodyText params)]> ∅)) /\
    content !! "action" = Some (JObj (action params)) /\
    content !! "header"
      = match Interactive.headerText params with
        | Some t => if decide (t = "") then None
                    else Some (JObj (<["text" := JStr t]> (<["type" := JStr "text"]> ∅)))
        | None => None
        end /\
    content !! "footer"
      = match Interactive.footerText params with
        | Some t => if decide (t = "") then None
                    else Some (JObj (<["text" := JStr t]> ∅))
        | None => None
        end /\
    (forall buttons,
       Interactive.interactiveType params = Interactive.button ->
       Interactive.buttons params = Some buttons ->
       action params !! "buttons" = Some (JArr (List.map reply_button buttons)) /\
       action params !! "sections" = None) /\
    (forall sections,
       Interactive.interactiveType params = Interactive.list_type ->
       Interactive.listSections params = Some sections ->
       action params !! "sections" = Some (JArr sections) /\
       action params !! "button" = Some (JStr "Select an option")) /\
    (Interactive.interactiveType params = Interactive.product \/
     Interactive.interactiveType params = Interactive.product_list \/
     (Interactive.interactiveType params = Interactive.button /\
      Interactive.buttons params = None) \/
     (Interactive.interactiveType params = Interactive.list_type /\
      Interactive.listSections params = None) ->
     action params = ∅).
Proof.
  unfold sendInteractiveMessage.
  refine (ex_intro _ (with_context (Interactive.replyToMessageId params)
            (<["interactive" := JObj (interactive params)]>
               (envelope (Interactive.to params) "interactive"))) _).
  exists (interactive params).
  split; [exact (call_sendMessage_run _)|].
  destruct (with_context_lookup (Interactive.replyToMessageId params)
              (<["interactive" := JObj (interactive params)]>
                 (envelope (Interactive.to params) "interactive")))
    as [_ Hframe].
  destruct (envelope_lookup (Interactive.to params) "interactive") as (E1 & _ & E3 & E4 & _).
  assert (Hset : forall key value (o : gmap string JSON) k,
            set_if_defined key value o !! k
              = if decide (k = key)
                then match value with Some v => Some v | None => o !! k end
                else o !! k).
  { intros key value o k. unfold set_if_defined. destruct value as [v|].
    - destruct (decide (k = key)) as [->|];
        [apply lookup_insert_eq | apply lookup_insert_ne; congruence].
    - destruct (decide (k = key)); reflexivity. }
  split_and!.
  - rewrite Hframe, lookup_insert_ne by discriminate. exact E1.
  - rewrite Hframe, lookup_insert_ne by discriminate. exact E3.
  - rewrite Hframe, lookup_insert_ne by discriminate. exact E4.
  - rewrite Hframe by discriminate. apply lookup_insert_eq.
  - unfold interactive. rewrite !Hset. simpl.
    rewrite !lookup_insert_ne by discriminate. apply lookup_insert_eq.
  - unfold interactive. rewrite !Hset. simpl.
    rewrite lookup_insert_ne by discriminate. apply lookup_insert_eq.
  - unfold interactive. rewrite !Hset. simpl. apply lookup_insert_eq.
  - unfold interactive. rewrite !Hset. simpl. unfold header, truthy_str.
    destruct (Interactive.headerText params) as [t|].
    + destruct (String.eqb_spec t ""), (decide (t = "")); try congruence; simpl;
        [|reflexivity].
      rewrite !lookup_insert_ne by discriminate. apply lookup_empty.
    + rewrite !lookup_insert_ne by discriminate. apply lookup_empty.
  - unfold interactive. rewrite !Hset. simpl. unfold footer, truthy_str.
    destruct (Interactive.footerText params) as [t|].
    + destruct (String.eqb_spec t ""), (decide (t = "")); try congruence; simpl;
        [|reflexivity].
      rewrite !lookup_insert_ne by discriminate. apply lookup_empty.
    + rewrite !lookup_insert_ne by discriminate. apply lookup_empty.
  - intros buttons Htype Hbuttons. unfold action. rewrite Htype, Hbuttons. split.
    + apply lookup_insert_eq.
    + rewrite lookup_insert_ne by discriminate. apply lookup_empty.
  - intros sections Htype Hsections. unfold action. rewrite Htype, Hsections.
    split.
    + apply lookup_insert_eq.
    + rewrite lookup_insert_ne by discriminate. apply lookup_insert_eq.
  - unfold action. intros [-> | [-> | [[-> ->] | [-> ->]]]]; reflexivity.
Qed.

(** A reply button keeps the id and the title it was made from. *)
Lemma reply_button_fields (b : Interactive.Button) :
  prop (reply_button b) "type" = Some (JStr "reply") /\
  exists reply,
    prop (reply_button b) "reply" = Some (JObj reply) /\
    reply !! "id" = Some (JStr (Interactive.id b)) /\
    reply !! "title" = Some (JStr (Interactive.title b)).
Proof.
  unfold reply_button. simpl. split.
  - rewrite lookup_insert_ne by discriminate. apply lookup_insert_eq.
  - eexists. split; [apply lookup_insert_eq|]. split.
    + rewrite lookup_insert_ne by discriminate. apply lookup_insert_eq.
    + apply lookup_insert_eq.
Qed.

(** X13: [sendTemplateMessage] calls the repository once with a message of type
    ['template'] that names the template and its language; the components,
    when given, are handed on in number and order, each with its type and
    its parameters, and the message never has a reply context. *)
Theorem sendTemplateMessage_message (params : Template.SendTemplateMessageParams) :
  exists message content,
    sendTemplateMessage params
      = (fst (repository_sendMessage message),
         RepositorySendMessage message :: snd (repository_sendMessage message)) /\
    message !! "messaging_product" = Some (JStr "whatsapp") /\
    message !! "to" = Some (JStr (Template.to params)) /\
    message !! "type" = Some (JStr "template") /\
    message !! "context" = None /\
    message !! "template" = Some (JObj content) /\
    content !! "name" = Some (JStr (Template.templateName params)) /\
    content !! "language"
      = Some (JObj (<["code" := JStr (Template.languageCode params)]> ∅)) /\
    content !! "components"
      = match Template.components params with
        | Some cs => Some (JArr (List.map templateComponent cs))
        | None => None
        end /\
    (forall c,
       prop (templateComponent c) "type" = Some (JStr (Template.name (Template.type c))) /\
       prop (templateComponent c) "parameters"
         = Some (JArr (List.map JObj (Template.parameters c)))).
Proof.
  unfold sendTemplateMessage.
  exists (<["template" := JObj (template params)]> (envelope (Template.to params) "template")),
         (template params).
  split; [exact (call_sendMessage_run _)|].
  destruct (envelope_lookup (Template.to params) "template") as (E1 & _ & E3 & E4 & E5).
  split_and!.
  - rewrite lookup_insert_ne by discriminate. exact E1.
  - rewrite lookup_insert_ne by discriminate. exact E3.
  - rewrite lookup_insert_ne by discriminate. exact E4.
  - rewrite lookup_insert_ne by discriminate. apply E5; discriminate.
  - apply lookup_insert_eq.
  - unfold template, set_if_defined. destruct (Template.components params); simpl;
      rewrite !lookup_insert_ne by discriminate; apply lookup_insert_eq.
  - unfold template, set_if_defined. destruct (Template.components params); simpl;
      rewrite ?(lookup_insert_ne _ "components") by discriminate; apply lookup_insert_eq.
  - unfold template, set_if_defined. destruct (Template.components params); simpl.
    + apply lookup_insert_eq.
    + rewrite !lookup_insert_ne by discriminate. apply lookup_empty.
  - intros c. unfold templateComponent. simpl. split.
    + rewrite lookup_insert_ne by discriminate. apply lookup_insert_eq.
    + apply lookup_insert_eq.
Qed.

End Facts.

Section Wire.
Variable JSON_stringify : JSON -> string.
Variable fetch : Request -> Result Response.
Variable config : IWhatsAppConfig.

(** X14: With the repository the container wires in, a text message reaches
    [fetch] as the use case built it: one call of the repository, one
    request, whose body is the serialization of that very message. A custom
    message is sent with the discriminator forced. *)
Theorem sent_as_built (params : Text.SendTextMessageParams) (custom : WhatsAppMessage) :
  (exists message,
     snd (@sendTextMessage (production JSON_stringify fetch config) params)
       = [ RepositorySendMessage message;
           Fetch (WhatsAppHttpClient.post_request JSON_stringify config
                    (phoneNumberId config ++ "/messages") message) ] /\
     message !! "to" = Some (JStr (Text.to params))) /\
  snd (@sendCustomMessage (production JSON_stringify fetch config) custom)
    = [ RepositorySendMessage custom;
        Fetch (WhatsAppHttpClient.post_request JSON_stringify config
                 (phoneNumberId config ++ "/messages")
                 (<["messaging_product" := JStr "whatsapp"]> custom)) ].
Proof.
  split.
  - unfold sendTextMessage.
    set (message := with_context _ _).
    assert (Hframe : forall k, k <> "context" -> k <> "text" ->
              message !! k = envelope (Text.to params) "text" !! k).
    { intros k Hcontext Htext. subst message.
      rewrite (proj2 (with_context_lookup _ _)) by exact Hcontext.
      apply lookup_insert_ne. congruence. }
    exists message. split.
    + rewrite call_sendMessage_run. simpl.
      unfold WhatsAppMessageRepository.sendMessage.
      rewrite WhatsAppHttpClientFacts.post_issues_one_request.
      unfold WhatsAppMessageRepository.messageToSend.
      rewrite insert_id; [reflexivity|].
      rewrite Hframe by discriminate. apply envelope_lookup.
    + rewrite Hframe by discriminate. apply envelope_lookup.
  - unfold sendCustomMessage. rewrite call_sendMessage_run. simpl.
    unfold WhatsAppMessageRepository.sendMessage.
    rewrite WhatsAppHttpClientFacts.post_issues_one_request. reflexivity.
Qed.

End Wire.
(** The use-case tests, against the mocked repository. *)
Example sendTextMessage_reply_test :
  exists message,
    @sendTextMessage Fixtures.mock_repository Fixtures.text_params_reply
      = (Return Fixtures.success_response, [RepositorySendMessage message]) /\
    message !! "context"
      = Some (JObj (<["message_id" := JStr "wamid.previous123"]> ∅)).
Proof. eexists. split; [reflexivity|]. vm_compute. reflexivity. Qed.

Example sendMediaMessage_with_id_test :
  exists message,
    @sendMediaMessage Fixtures.mock_repository Fixtures.media_params_with_id
      = (Return Fixtures.success_response, [RepositorySendMessage message]) /\
    message !! "type" = Some (JStr "image") /\
    message !! "image"
      = Some (Fixtures.obj [("id", JStr "image-id-123"); ("caption", JStr "Nice picture")]).
Proof. eexists. split; [reflexivity|]. split; vm_compute; reflexivity. Qed.

End SendMessageUseCaseMessages.

(** ** Dispatch *)

Module WhatsAppWebhookDispatch.
Import WhatsAppWebhookRepository WhatsAppWebhookRepositoryFacts.
Local Open Scope list_scope.

Section Facts.
Context {World : Type}.
Implicit Types (eventHandlers : @Registry World) (w : World) (tr : list Invocation).

(** X15: Registering a handler appends it to the array of its event type, after
    the handlers registered before, and leaves the arrays of the other event
    types as they are: nothing is replaced and nothing is removed. *)
Theorem registerEventHandler_appends eventHandlers eventType (handler : Handler) :
  default [] (registerEventHandler eventType handler eventHandlers !! eventType)
    = default [] (eventHandlers !! eventType) ++ [handler] /\
  (forall other, other <> eventType ->
     registerEventHandler eventType handler eventHandlers !! other
       = eventHandlers !! other).
Proof.
  split.
  - rewrite registerEventHandler_lookup. reflexivity.
  - intros other Hother. apply registerEventHandler_other, Hother.
Qed.

Lemma processWebhookPayload_same_handlers eventHandlers1 eventHandlers2 (payload : JSON) w :
  eventHandlers1 !! message = eventHandlers2 !! message ->
  eventHandlers1 !! status = eventHandlers2 !! status ->
  processWebhookPayload eventHandlers1 payload w
    = processWebhookPayload eventHandlers2 payload w.
Proof.
  intros Hm Hs.
  unfold processWebhookPayload, process_entry, process_change, processMessages,
    processStatuses, dispatch.
  rewrite Hm, Hs. reflexivity.
Qed.

(** X16: Handlers registered for ['message_template_status_update'] are never
    called: registering one changes nothing in what [processWebhookPayload]
    does with any payload. *)
Theorem template_status_handlers_never_called eventHandlers (handler : Handler)
    (payload : JSON) w :
  processWebhookPayload
    (registerEventHandler message_template_status_update handler eventHandlers) payload w
    = processWebhookPayload eventHandlers payload w.
Proof.
  apply processWebhookPayload_same_handlers;
    apply registerEventHandler_other; discriminate.
Qed.

(** X17: [processWebhookPayload] never throws, whatever the payload and whatever
    the handlers do, and it answers [true] only for a payload whose [object]
    is ['whatsapp_business_account']. *)
Theorem processWebhookPayload_never_throws eventHandlers (payload : JSON) w :
  exists b,
    fst (fst (processWebhookPayload eventHandlers payload w)) = Return b /\
    (b = true -> prop payload "object" = Some (JStr "whatsapp_business_account")).
Proof.
  unfold processWebhookPayload, try_catch.
  destruct (strict_eq_str (prop payload "object") "whatsapp_business_account") eqn:E; simpl.
  - apply strict_eq_str_spec in E.
    destruct (bind _ _ w) as [[[b|e] w1] t1]; simpl; eauto.
  - exists false. split; [reflexivity | discriminate].
Qed.

(** *** Without handlers *)

Lemma effectless_bind {A B} (m : M A) (k : A -> M B) w :
  (exists r, m w = (r, w, [])) ->
  (forall a, exists r, k a w = (r, w, [])) ->
  exists r, bind m k w = (r, w, []).
Proof.
  intros [[a|e] Hm] Hk; unfold bind; rewrite Hm; [|eauto].
  destruct (Hk a) as [r ->]. eauto.
Qed.

Lemma effectless_for_each (xs : list JSON) (body : JSON -> M unit) w :
  (forall x, exists r, body x w = (r, w, [])) ->
  exists r, for_each xs body w = (r, w, []).
Proof.
  intros Hbody. induction xs as [|x xs IH]; simpl; [unfold ret; eauto|].
  apply effectless_bind; auto.
Qed.

Lemma effectless_for_of (v : JSON) (body : JSON -> M unit) w :
  (forall x, exists r, body x w = (r, w, [])) ->
  exists r, for_of v body w = (r, w, []).
Proof.
  intros Hbody. unfold for_of. apply effectless_bind.
  - rewrite lift_run. eauto.
  - intros xs. apply effectless_for_each, Hbody.
Qed.

Lemma effectless_dispatch eventHandlers eventType (value : JSON) w :
  default [] (eventHandlers !! eventType) = [] ->
  dispatch eventHandlers eventType value w = (Return tt, w, []).
Proof. intros H. unfold dispatch. rewrite H. reflexivity. Qed.

(** X18: While no handler is registered for ['message'] or ['status'],
    [processWebhookPayload] calls nothing and leaves the world as it is, for
    every payload; only its boolean is left. *)
Theorem processWebhookPayload_without_handlers eventHandlers (payload : JSON) w :
  default [] (eventHandlers !! message) = [] ->
  default [] (eventHandlers !! status) = [] ->
  exists b, processWebhookPayload eventHandlers payload w = (Return b, w, []).
Proof.
  intros Hm Hs.
  assert (Hchange : forall change, exists r,
            process_change eventHandlers change w = (r, w, [])).
  { intros change. unfold process_change. destruct (negb _); [unfold ret; eauto|].
    apply effectless_bind.
    - destruct (truthy_opt _); [|unfold ret; eauto].
      unfold processMessages. apply effectless_bind; [rewrite lift_run; eauto|].
      intros []; [unfold ret; eauto|]. rewrite effectless_dispatch by exact Hm. eauto.
    - intros _. destruct (truthy_opt _); [|unfold ret; eauto].
      unfold processStatuses. apply effectless_bind; [rewrite lift_run; eauto|].
      intros []; [unfold ret; eauto|]. rewrite effectless_dispatch by exact Hs. eauto. }
  assert (Hentries : forall v, exists r,
            for_of v (process_entry eventHandlers) w = (r, w, [])).
  { intros v. apply effectless_for_of. intros entry. unfold process_entry.
    apply effectless_for_of, Hchange. }
  unfold processWebhookPayload, try_catch.
  destruct (negb _); [unfold ret; eauto|].
  destruct (Hentries (or_default (prop payload "entry") (JArr []))) as [r Hr].
  unfold bind. rewrite Hr. destruct r; simpl; eauto.
Qed.

(** *** A handler that throws *)

Lemma map_handlers_throw eventType (value : JSON) (handler : @Handler World)
    (before after : list Handler) :
  (forall g, g ∈ before -> forall w0, exists p, fst (g value w0) = Returned p) ->
  (forall w0, exists e, fst (handler value w0) = Threw e) ->
  forall index w, exists (promises : list Promise) e w',
    map_handlers eventType index (before ++ handler :: after) value w
      = (Throw e, w',
         imap (fun k p => mkInvocation eventType (index + k) value (Returned p)) promises
           ++ [mkInvocation eventType (index + length before) value (Threw e)]) /\
    length promises = length before.
Proof.
  intros Hbefore Hthrow. induction before as [|g before IH]; intros index w; simpl.
  - destruct (Hthrow w) as [e He]. exists [], e, (snd (handler value w)).
    unfold bind at 1. unfold invoke.
    destruct (handler value w) as [o w1]. simpl in He. subst o. simpl.
    rewrite Nat.add_0_r. auto.
  - destruct (Hbefore g (list_elem_of_here _ _) w) as [p Hp].
    destruct (IH (fun g' Hg' => Hbefore g' (list_elem_of_further _ _ _ Hg')) (S index)
                 (snd (g value w))) as (ps & e & w' & Hrun & Hlen).
    exists (p :: ps), e, w'. split; [|simpl; congruence].
    unfold bind at 1. unfold invoke.
    destruct (g value w) as [o w1]. simpl in Hp, Hrun. subst o.
    unfold bind at 1. rewrite Hrun. simpl.
    rewrite Nat.add_0_r, Nat.add_succ_r. f_equal. f_equal. f_equal.
    apply imap_ext. intros k q _. simpl. f_equal. lia.
Qed.

(** X19: A handler that throws before returning a promise ends [handlers.map] on
    the spot: the handlers registered before it have been called, in order,
    the ones registered after it are not called at all, and the dispatch
    fails. *)
Theorem throwing_handler_skips_later_handlers eventHandlers eventType (value : JSON)
    (handler : Handler) (before after : list Handler) w :
  default [] (eventHandlers !! eventType) = before ++ handler :: after ->
  (forall g, g ∈ before -> forall w0, exists p, fst (g value w0) = Returned p) ->
  (forall w0, exists e, fst (handler value w0) = Threw e) ->
  exists (promises : list Promise) e w',
    dispatch eventHandlers eventType value w
      = (Throw e, w',
         imap (fun k p => mkInvocation eventType k value (Returned p)) promises
           ++ [mkInvocation eventType (length before) value (Threw e)]) /\
    length promises = length before.
Proof.
  intros Hhandlers Hbefore Hthrow.
  destruct (map_handlers_throw eventType value handler before after Hbefore Hthrow 0 w)
    as (promises & e & w' & Hrun & Hlen).
  exists promises, e, w'. split; [|exact Hlen].
  unfold dispatch. rewrite Hhandlers. unfold bind. rewrite Hrun. reflexivity.
Qed.

(** *** Messages and statuses of one change *)


Lemma bind_unit_ret (m : M unit) w : bind m (fun _ => ret tt) w = m w.
Proof.
  unfold bind, ret. destruct (m w) as [[[[]|e] w1] t1]; [|reflexivity].
  rewrite app_nil_r. reflexivity.
Qed.


(** X21: Which [messages] are dispatched: the code asks for a truthy value whose
    [length] is not [0], so a non-empty array is dispatched, and so are a
    non-empty string, a non-zero number, [true], and an object unless it has
    a [length] of [0]; an absent or falsy value and an empty array are
    skipped. *)
Theorem messages_of_any_shape eventHandlers (change value : JSON) w :
  prop change "field" = Some (JStr "messages") ->
  or_default (prop change "value") (JObj ∅) = value ->
  truthy_opt (prop value "statuses") = false ->
  process_change eventHandlers change w
    = match prop value "messages" with
      | Some (JArr (_ :: _)) => dispatch eventHandlers message value w
      | Some (JBool true) => dispatch eventHandlers message value w
      | Some (JStr s) =>
          if decide (s = "") then (Return tt, w, [])
          else dispatch eventHandlers message value w
      | Some (JNum q) =>
          if is_zero q then (Return tt, w, [])
          else dispatch eventHandlers message value w
      | Some (JObj fields) =>
          match fields !! "length" with
          | Some (JNum q) =>
              if is_zero q then (Return tt, w, [])
              else dispatch eventHandlers message value w
          | _ => dispatch eventHandlers message value w
          end
      | _ => (Return tt, w, [])
      end.
Proof.
  intros Hfield Hvalue Hstatuses. unfold process_change.
  apply strict_eq_str_spec in Hfield. rewrite Hfield. simpl.
  rewrite Hvalue, Hstatuses, bind_unit_ret.
  unfold processMessages.
  destruct (prop value "messages") as [[|[]|q|s|[|x xs]|fields]|]; simpl;
    try reflexivity.
  - unfold bind. simpl. destruct (dispatch _ _ _ w) as [[r w1] t1]. reflexivity.
  - unfold is_zero. destruct (Qnum q =? 0)%Z; simpl; [reflexivity|].
    unfold bind. simpl. destruct (dispatch _ _ _ w) as [[r w1] t1]. reflexivity.
  - destruct (String.eqb_spec s ""), (decide (s = "")); try congruence; simpl;
      [reflexivity|].
    unfold bind. simpl.
    destruct (String.eqb_spec s ""); [congruence|].
    destruct (dispatch _ _ _ w) as [[r w1] t1]. reflexivity.
  - unfold bind. simpl. destruct (dispatch _ _ _ w) as [[r w1] t1]. reflexivity.
  - unfold bind. simpl.
    destruct (fields !! "length") as [[| |q| | |]|]; simpl;
      try (destruct (dispatch _ _ _ w) as [[r w1] t1]; reflexivity).
    destruct (is_zero q); simpl; [reflexivity|].
    destruct (dispatch _ _ _ w) as [[r w1] t1]. reflexivity.
Qed.

End Facts.
(** The closed examples of the hypotheses above. *)

Lemma processWebhookPayload_without_handlers_witness :
  exists b,
    processWebhookPayload Fixtures.no_handlers Fixtures.payload_with_messages 0
      = (Return b, 0, []).
Proof.
  apply (processWebhookPayload_without_handlers Fixtures.no_handlers
           Fixtures.payload_with_messages 0); reflexivity.
Defined.

Lemma throwing_handler_skips_later_handlers_witness :
  exists (promises : list Promise) e w',
    dispatch Fixtures.handlers_around_a_thrower message Fixtures.value_with_messages 0
      = (Throw e, w',
         imap (fun k p => mkInvocation message k Fixtures.value_with_messages (Returned p))
              promises
           ++ [mkInvocation message 1 Fixtures.value_with_messages (Threw e)]) /\
    length promises = 1.
Proof.
  apply (throwing_handler_skips_later_handlers Fixtures.handlers_around_a_thrower message
           Fixtures.value_with_messages Fixtures.mock_throwing
           [Fixtures.mock_resolved] [Fixtures.mock_resolved] 0).
  - reflexivity.
  - intros g Hg w0. exists Fulfilled.
    apply list_elem_of_In in Hg. simpl in Hg. destruct Hg as [<-|[]]. reflexivity.
  - intros w0. exists (Error "Handler error"). reflexivity.
Defined.


Lemma messages_of_any_shape_witness :
  process_change Fixtures.two_resolving_handlers
    (Fixtures.change_of "messages" Fixtures.value_with_text) 0
    = dispatch Fixtures.two_resolving_handlers message Fixtures.value_with_text 0.
Proof.
  apply (messages_of_any_shape Fixtures.two_resolving_handlers
           (Fixtures.change_of "messages" Fixtures.value_with_text)
           Fixtures.value_with_text 0); reflexivity.
Defined.

End WhatsAppWebhookDispatch.
